(** * The descheduler's event engine: callbacks, work queue, worker loop, Run

    A shallow embedding of [pkg/descheduler/descheduler.go].  The three
    closures registered by [CreateDescheduler] (timer, node update, replica
    set update) are state transformers over the two variables they capture
    ([newEvent] and [err]); [Run] and the worker are a labelled transition
    system whose labels are the choices of the environment (an informer
    delivers a notification, a cache-sync wait returns, the timer fires, the
    stop channel is closed) and of the scheduler (the worker runs one
    iteration).  Every call to a collaborator is appended to a log, so that
    statements of the form "the worker calls Done" are statements about that
    log.

    The callbacks run on goroutines of their own (one per informer, one for
    the timer) and the source guards the captured variables with no lock.
    An invocation of a callback is therefore also a frame of the state, the
    statements it still has to run, and any in-flight invocation may run its
    next statement at any time: the writes of [newEvent.key], of [err], of
    [newEvent.eventType] and of [newEvent.resourceType], the test of [err]
    and the [queue.Add] are steps of their own (the copy of [newEvent] made
    by [queue.Add] is one step).  The labels [LUpdate] and [LTimer] are the
    schedules in which an invocation runs from its first statement to its
    last with nothing in between; they are steps for convenience and are
    proved to be executions of the statement-level steps.  Any two
    invocations in flight may interleave, also two of the same handler,
    which an informer runs one after the other: the executions of the
    program are among those of the model, and the executions exhibited
    below interleave callbacks of different goroutines only.  An iteration of
    the worker is one step: it shares nothing with the callbacks but the
    queue.  Panics are not modelled, apart from the failed type assertion
    of the node handler, which no execution reaches.  [serverStartTime] is
    written by [Run] and read nowhere; it is left out. *)

From Stdlib Require Import String List Bool Arith Lia.
Import ListNotations.
Open Scope string_scope.

(** ** Data model *)

(** Go's [error]: [None] is [nil], [Some msg] an error carrying [msg]. *)
Definition error := option string.

(** [const maxRetries = 5].  Declared by the source and used nowhere in it. *)
Definition maxRetries : nat := 5.

(** [type Event struct]. *)
Record Event := mkEvent {
  key : string;
  eventType : string;
  namespace : string;
  resourceType : string
}.

(** The zero value of [Event], what [var newEvent Event] holds at first. *)
Definition zeroEvent : Event := mkEvent "" "" "" "".

Definition set_key (k : string) (e : Event) : Event :=
  mkEvent k (eventType e) (namespace e) (resourceType e).
Definition set_eventType (t : string) (e : Event) : Event :=
  mkEvent (key e) t (namespace e) (resourceType e).
Definition set_resourceType (t : string) (e : Event) : Event :=
  mkEvent (key e) (eventType e) (namespace e) t.

(** Go's [==] on [Event] values (comparable struct of strings): the identity
    the queue deduplicates on. *)
Definition Event_eqb (a b : Event) : bool :=
  String.eqb (key a) (key b) && String.eqb (eventType a) (eventType b) &&
  String.eqb (namespace a) (namespace b) &&
  String.eqb (resourceType a) (resourceType b).

(** The three informers held by [Descheduler]. *)
Inductive Informer := nodeInformer | rsInformer | podInformer.

Definition Informer_eqb (a b : Informer) : bool :=
  match a, b with
  | nodeInformer, nodeInformer | rsInformer, rsInformer
  | podInformer, podInformer => true
  | _, _ => false
  end.

(** ** The work queue *)

Module workqueue.

(** Modelled from the spec: the rate limiting work queue of client-go
    ([workqueue.RateLimitingInterface]) is not part of the sources; this is
    the queue of section 4.2.  [pending] are the items queued and not yet
    dequeued, in FIFO order; [processing] the items handed out by [Get] and
    not yet [Done]; [retries] holds one occurrence of an item per
    failure-driven re-enqueue.  Backoff delays are time and are left out. *)
Record Queue := mkQueue {
  pending : list Event;
  processing : list Event;
  retries : list Event;
  shuttingDown : bool
}.

(** Modelled from the spec: the constructor of the absent queue; nothing
    pending, nothing in process, no retry counted, not shut down. *)
Definition NewRateLimitingQueue : Queue := mkQueue [] [] [] false.

Definition removeb (item : Event) (l : list Event) : list Event :=
  filter (fun x => negb (Event_eqb item x)) l.

(** Modelled from the spec: [Add] of the absent queue.  "inserts item; if an
    equal item is already pending, the insertion is a no-op"; a queue that
    was shut down "stops accepting new work". *)
Definition Add (item : Event) (q : Queue) : Queue :=
  if shuttingDown q then q
  else if existsb (Event_eqb item) (pending q) then q
  else mkQueue (pending q ++ [item]) (processing q) (retries q) (shuttingDown q).

(** Modelled from the spec: the three outcomes of [Get] of the absent queue,
    an item, [shutdown=true], or the caller stays blocked. *)
Inductive GetResult :=
| GetItem (item : Event) (q' : Queue)
| GetShutdown
| GetBlocks.

(** Modelled from the spec: [Get] of the absent queue.  "blocks until an
    item is available or the queue is shut down; returns shutdown=true with
    no item once shut down and drained". *)
Definition Get (q : Queue) : GetResult :=
  match pending q with
  | item :: rest =>
      GetItem item (mkQueue rest (item :: processing q) (retries q) (shuttingDown q))
  | [] => if shuttingDown q then GetShutdown else GetBlocks
  end.

(** Modelled from the spec: [Done] of the absent queue, "marks the item
    finished". *)
Definition Done (item : Event) (q : Queue) : Queue :=
  mkQueue (pending q) (removeb item (processing q)) (retries q) (shuttingDown q).

(** Modelled from the spec: [NumRequeues] of the absent queue, "exposes the
    current retry counter". *)
Definition NumRequeues (item : Event) (q : Queue) : nat :=
  length (filter (Event_eqb item) (retries q)).

(** Modelled from the spec: [AddRateLimited] of the absent queue,
    "re-queues item after a computed backoff delay and increments its retry
    counter". *)
Definition AddRateLimited (item : Event) (q : Queue) : Queue :=
  Add item (mkQueue (pending q) (processing q) (item :: retries q) (shuttingDown q)).

(** Modelled from the spec: [Forget] of the absent queue, "resets the retry
    counter for item's identity". *)
Definition Forget (item : Event) (q : Queue) : Queue :=
  mkQueue (pending q) (processing q) (removeb item (retries q)) (shuttingDown q).

(** Modelled from the spec: [ShutDown] of the absent queue, "stops accepting
    new work conceptually and causes pending Get calls to drain then return
    shutdown". *)
Definition ShutDown (q : Queue) : Queue :=
  mkQueue (pending q) (processing q) (retries q) true.

(** [n] consecutive [Get]s, each acknowledged; the items handed out and what
    the [n+1]-th [Get] would see. *)
Fixpoint drain (n : nat) (q : Queue) : list Event * Queue :=
  match n with
  | O => ([], q)
  | S n' =>
      match Get q with
      | GetItem item q' =>
          let (items, q'') := drain n' (Done item q') in (item :: items, q'')
      | _ => ([], q)
      end
  end.

End workqueue.

(** ** The variables captured by the callbacks *)

(** [CreateDescheduler] declares [var newEvent Event] once, and its [err]
    once; the three closures it registers all capture these two variables. *)
Record Captured := mkCaptured {
  newEvent : Event;
  err : error
}.

Definition initialCaptured : Captured := mkCaptured zeroEvent None.

(** The two [cache.ResourceEventHandlerFuncs] literals of the source. *)
Inductive Handler := nodeUpdateHandler | rsUpdateHandler.

(** The [AddEventHandler] calls of [CreateDescheduler], in order.  None is
    made on the pod informer. *)
Definition registered : list (Informer * Handler) :=
  [(nodeInformer, nodeUpdateHandler); (rsInformer, rsUpdateHandler)].

(** Control points of [Run]. *)
Inductive Pc :=
| Created          (* Run not called yet *)
| WaitNodeSync     (* inside WaitForCacheSync(ch, d.nodeInformer.HasSynced) *)
| WaitRsSync       (* inside WaitForCacheSync(ch, d.rsInformer.HasSynced) *)
| WaitPodSync      (* inside WaitForCacheSync(ch, d.podInformer.HasSynced) *)
| InWorker         (* inside wait.Until, in a call of d.runWorker *)
| BetweenWorkers   (* inside wait.Until, runWorker returned, waiting a period *)
| Returned.        (* Run returned, its deferred calls were run *)

(** The calls [Run] defers. *)
Inductive Deferred := DHandleCrash | DShutDown | DClose (i : Informer).

Section Descheduler.

(** The cluster objects and the collaborators of other packages, which the
    code only consumes: [node.IsReady], [cache.MetaNamespaceKeyFunc]. *)
Variables Node ReplicaSet Pod : Type.
Variable IsReady : Node -> bool.

(** What travels through an informer callback as [interface{}]. *)
Inductive Object :=
| ONode (n : Node)
| OReplicaSet (r : ReplicaSet)
| OPod (p : Pod).

Variable MetaNamespaceKeyFunc : Object -> string * error.

(** The informer that delivers objects of this type (the example object
    handed to [cache.NewSharedIndexInformer]). *)
Definition informerOf (o : Object) : Informer :=
  match o with
  | ONode _ => nodeInformer
  | OReplicaSet _ => rsInformer
  | OPod _ => podInformer
  end.

(** *** The callbacks

    A callback that runs from its first statement to its last with no
    statement of another callback in between maps the captured variables
    to their new contents and to the arguments of its [queue.Add] calls, in
    order.  [queue.Add(newEvent)] boxes a copy of the struct, so what is
    queued is the value [newEvent] has at the call.  The statements one by
    one are [timerCode], [nodeCode] and [rsCode] below. *)

(** The closure handed to [timer.InitTimer]. *)
Definition timerFunc (c : Captured) : Captured * list Event :=
  let ev := set_eventType "onTime" (newEvent c) in
  let ev := set_resourceType "timer" ev in
  (mkCaptured ev (err c), [ev]).

(** [UpdateFunc] of the handler added to [nodeInformer]. *)
Definition nodeUpdateFunc (old new : Node) (c : Captured) : Captured * list Event :=
  if negb (IsReady old) && IsReady new then
    let (k, e) := MetaNamespaceKeyFunc (ONode old) in
    let ev := set_key k (newEvent c) in
    let ev := set_eventType "getReady" ev in
    let ev := set_resourceType "node" ev in
    match e with
    | None => (mkCaptured ev e, [ev])
    | Some _ => (mkCaptured ev e, [])
    end
  else (c, []).

(** A run of node updates delivered one after the other: the captured
    variables at the end and everything handed to [queue.Add], in order. *)
Fixpoint nodeUpdates (us : list (Node * Node)) (c : Captured)
  : Captured * list Event :=
  match us with
  | [] => (c, [])
  | (old, new) :: us' =>
      let r := nodeUpdateFunc old new c in
      let r' := nodeUpdates us' (fst r) in
      (fst r', (snd r ++ snd r')%list)
  end.

(** [UpdateFunc] of the handler added to [rsInformer]. *)
Definition rsUpdateFunc (old new : Object) (c : Captured) : Captured * list Event :=
  let (k, e) := MetaNamespaceKeyFunc old in
  let ev := set_key k (newEvent c) in
  let ev := set_eventType "rsUpdate" ev in
  let ev := set_resourceType "replicaSet" ev in
  match e with
  | None => (mkCaptured ev e, [ev])
  | Some _ => (mkCaptured ev e, [])
  end.

(** Dispatch on the handler; [None] is the panic of a failed type assertion
    [old.( *api_v1.Node)]. *)
Definition UpdateFunc (h : Handler) (old new : Object) (c : Captured)
  : option (Captured * list Event) :=
  match h with
  | nodeUpdateHandler =>
      match old, new with
      | ONode o, ONode n => Some (nodeUpdateFunc o n c)
      | _, _ => None
      end
  | rsUpdateHandler => Some (rsUpdateFunc old new c)
  end.

(** *** Calls to collaborators, as logged *)

Inductive Call :=
| CPrintln (msg : string)
| CPrintNodes (nodes : list Node)
| CHandleError (msg : string)
| CHandleCrash
| CInformerRun (i : Informer)
| CWaitForCacheSync (i : Informer) (synced : bool)
| CClose (i : Informer)
| CRunTimer
| CAdd (item : Event)
| CGet (item : option Event)
| CDone (item : Event)
| CShutDown
| CAddRateLimited (item : Event)
| CForget (item : Event)
| CNumRequeues (item : Event)
| CIsTriggered (r : bool)
| CGetReadyNodes (r : error).

(** *** The statements of a callback

    The statements of the three closures that touch the captured variables
    or the queue, one constructor per statement; the tuple assignment
    [newEvent.key, err = cache.MetaNamespaceKeyFunc(old)] is its two
    assignments, carried out left to right. *)
Inductive Instr :=
| IWriteKey (k : string)            (* newEvent.key = k *)
| IWriteErr (e : error)             (* err = e *)
| IWriteEventType (t : string)      (* newEvent.eventType = t *)
| IWriteResourceType (t : string)   (* newEvent.resourceType = t *)
| ICheckErr                         (* if err == nil { ... } *)
| IAdd.                             (* queue.Add(newEvent) *)

(** The body of the closure handed to [timer.InitTimer]. *)
Definition timerCode : list Instr :=
  [IWriteEventType "onTime"; IWriteResourceType "timer"; IAdd].

(** The body of the node handler's [UpdateFunc]: nothing to run unless the
    old node is not ready and the new one is. *)
Definition nodeCode (old new : Node) : list Instr :=
  if negb (IsReady old) && IsReady new then
    [IWriteKey (fst (MetaNamespaceKeyFunc (ONode old)));
     IWriteErr (snd (MetaNamespaceKeyFunc (ONode old)));
     IWriteEventType "getReady"; IWriteResourceType "node"; ICheckErr; IAdd]
  else [].

(** The body of the replica set handler's [UpdateFunc]. *)
Definition rsCode (old new : Object) : list Instr :=
  [IWriteKey (fst (MetaNamespaceKeyFunc old));
   IWriteErr (snd (MetaNamespaceKeyFunc old));
   IWriteEventType "rsUpdate"; IWriteResourceType "replicaSet"; ICheckErr; IAdd].

(** The body of a handler on given arguments; [None] is the panic of a
    failed type assertion [old.( *api_v1.Node)]. *)
Definition handlerCode (h : Handler) (old new : Object) : option (list Instr) :=
  match h with
  | nodeUpdateHandler =>
      match old, new with
      | ONode o, ONode n => Some (nodeCode o n)
      | _, _ => None
      end
  | rsUpdateHandler => Some (rsCode old new)
  end.

(** *** The state of the whole program *)

Record State := mkState {
  queue : workqueue.Queue;
  captured : Captured;
  handlers : list (Informer * Handler);   (* AddEventHandler registrations *)
  calls : list Call;                      (* the log, oldest first *)
  pc : Pc;
  live : list Informer;                   (* started, stop channel open *)
  timerOn : bool;                         (* timer.RunTimer was called *)
  stopCh : bool;                          (* the caller closed stopCh *)
  defers : list Deferred;                 (* most recent first *)
  frames : list (list Instr)              (* callbacks in flight: what each
                                             has still to run *)
}.

Definition set_queue (q : workqueue.Queue) (s : State) : State :=
  mkState q (captured s) (handlers s) (calls s) (pc s) (live s) (timerOn s)
          (stopCh s) (defers s) (frames s).
Definition set_captured (c : Captured) (s : State) : State :=
  mkState (queue s) c (handlers s) (calls s) (pc s) (live s) (timerOn s)
          (stopCh s) (defers s) (frames s).
Definition emit (c : Call) (s : State) : State :=
  mkState (queue s) (captured s) (handlers s) (calls s ++ [c]) (pc s) (live s)
          (timerOn s) (stopCh s) (defers s) (frames s).
Definition set_pc (p : Pc) (s : State) : State :=
  mkState (queue s) (captured s) (handlers s) (calls s) p (live s) (timerOn s)
          (stopCh s) (defers s) (frames s).
Definition set_live (l : list Informer) (s : State) : State :=
  mkState (queue s) (captured s) (handlers s) (calls s) (pc s) l (timerOn s)
          (stopCh s) (defers s) (frames s).
Definition set_timerOn (b : bool) (s : State) : State :=
  mkState (queue s) (captured s) (handlers s) (calls s) (pc s) (live s) b
          (stopCh s) (defers s) (frames s).
Definition set_stopCh (b : bool) (s : State) : State :=
  mkState (queue s) (captured s) (handlers s) (calls s) (pc s) (live s)
          (timerOn s) b (defers s) (frames s).
Definition set_defers (d : list Deferred) (s : State) : State :=
  mkState (queue s) (captured s) (handlers s) (calls s) (pc s) (live s)
          (timerOn s) (stopCh s) d (frames s).
Definition set_frames (fs : list (list Instr)) (s : State) : State :=
  mkState (queue s) (captured s) (handlers s) (calls s) (pc s) (live s)
          (timerOn s) (stopCh s) (defers s) fs.

(** [queue.Add(item)]. *)
Definition queueAdd (item : Event) (s : State) : State :=
  emit (CAdd item) (set_queue (workqueue.Add item (queue s)) s).

(** A callback ran: its writes to the captured variables, then its Adds. *)
Definition ranCallback (r : Captured * list Event) (s : State) : State :=
  fold_left (fun s' item => queueAdd item s') (snd r) (set_captured (fst r) s).

(** What a statement does to the state. *)
Definition effect (i : Instr) (s : State) : State :=
  let c := captured s in
  match i with
  | IWriteKey k => set_captured (mkCaptured (set_key k (newEvent c)) (err c)) s
  | IWriteErr e => set_captured (mkCaptured (newEvent c) e) s
  | IWriteEventType t =>
      set_captured (mkCaptured (set_eventType t (newEvent c)) (err c)) s
  | IWriteResourceType t =>
      set_captured (mkCaptured (set_resourceType t (newEvent c)) (err c)) s
  | ICheckErr => s
  | IAdd => queueAdd (newEvent c) s
  end.

(** Whether the callback goes on after a statement: the test of [err]
    skips the [Add], which is the last statement, when [err] is not nil. *)
Definition continues (i : Instr) (s : State) : bool :=
  match i with
  | ICheckErr => match err (captured s) with None => true | Some _ => false end
  | _ => true
  end.

(** A callback runs its statements with nothing in between. *)
Fixpoint runCode (code : list Instr) (s : State) : State :=
  match code with
  | [] => s
  | i :: rest => if continues i s then runCode rest (effect i s) else effect i s
  end.

(** The invocation [n] in flight is left with [rest] to run; an invocation
    with nothing left has returned. *)
Definition setFrame (n : nat) (rest : list Instr) (fs : list (list Instr))
  : list (list Instr) :=
  (firstn n fs ++ match rest with [] => [] | _ => [rest] end ++ skipn (S n) fs)%list.

(** An invocation starts: it is in flight unless it has nothing to run. *)
Definition pushFrame (code : list Instr) (fs : list (list Instr))
  : list (list Instr) :=
  match code with [] => fs | _ => (fs ++ [code])%list end.

(** The bodies of the handlers registered on [i], for one update. *)
Fixpoint handlerCodes (hs : list (Informer * Handler)) (i : Informer)
    (old new : Object) : option (list (list Instr)) :=
  match hs with
  | [] => Some []
  | (j, h) :: hs' =>
      if Informer_eqb i j then
        match handlerCode h old new, handlerCodes hs' i old new with
        | Some code, Some codes => Some (code :: codes)
        | _, _ => None
        end
      else handlerCodes hs' i old new
  end.

(** *** CreateDescheduler *)

(** [clientErr] is what [client.CreateClient] returns, [timerErr] what
    [timer.InitTimer] returns.  On success: a fresh queue, the three
    informers constructed and not started, one handler added to the node
    informer and one to the replica set informer. *)
Definition CreateDescheduler (clientErr timerErr : error) : State + string :=
  match clientErr with
  | Some e => inr e
  | None =>
      match timerErr with
      | Some e => inr e
      | None =>
          inl (mkState workqueue.NewRateLimitingQueue initialCaptured registered
                       [CPrintln "Using kubeconfig file:"]
                       Created [] false false [] [])
      end
  end.

(** *** The worker *)

(** What the collaborators answer during one iteration of the worker:
    [trigger.IsTriggered] and [node.GetReadyNodes]. *)
Record Oracle := mkOracle {
  isTriggered : bool;
  getReadyNodes : list Node * error
}.

(** [processNodeItem]. *)
Definition processNodeItem (o : Oracle) (ev : Event) (s : State) : error * State :=
  let (nodes, e) := getReadyNodes o in
  let s1 := emit (CGetReadyNodes e) s in
  match e with
  | Some msg => (Some msg, emit (CPrintln "Failed to get ready nodes:") s1)
  | None => (None, emit (CPrintNodes nodes) s1)
  end.

(** [processNextItem].  [None]: [Get] blocks.  The deferred [Done] runs last. *)
Definition processNextItem (o : Oracle) (s : State) : option (bool * State) :=
  match workqueue.Get (queue s) with
  | workqueue.GetBlocks => None
  | workqueue.GetShutdown => Some (false, emit (CGet None) s)
  | workqueue.GetItem event q' =>
      let s1 := emit (CGet (Some event)) (set_queue q' s) in
      let s2 :=
        if String.eqb (resourceType event) "node" ||
           String.eqb (resourceType event) "timer"
        then
          let s' := emit (CIsTriggered (isTriggered o)) s1 in
          if isTriggered o then snd (processNodeItem o event s') else s'
        else s1 in
      Some (true, emit (CDone event) (set_queue (workqueue.Done event (queue s2)) s2))
  end.

(** The calls one iteration makes between its [Get] and its [Done] when it
    dequeued [event]; used to state what [processNextItem] logs. *)
Definition between (o : Oracle) (event : Event) : list Call :=
  if String.eqb (resourceType event) "node" ||
     String.eqb (resourceType event) "timer"
  then
    CIsTriggered (isTriggered o) ::
    (if isTriggered o then
       [CGetReadyNodes (snd (getReadyNodes o));
        match snd (getReadyNodes o) with
        | Some _ => CPrintln "Failed to get ready nodes:"
        | None => CPrintNodes (fst (getReadyNodes o))
        end]
     else [])
  else [].

(** [runWorker]: [for d.processNextItem() {}], one oracle per iteration.
    [WorkerReturned]: an iteration returned false; [WorkerBlocked]: a [Get]
    blocks; [WorkerLooping]: still in the loop after all the given
    iterations. *)
Inductive WorkerOutcome :=
| WorkerReturned (s : State)
| WorkerBlocked (s : State)
| WorkerLooping (s : State).

Fixpoint runWorker (os : list Oracle) (s : State) : WorkerOutcome :=
  match os with
  | [] => WorkerLooping s
  | o :: os' =>
      match processNextItem o s with
      | None => WorkerBlocked s
      | Some (false, s') => WorkerReturned s'
      | Some (true, s') => runWorker os' s'
      end
  end.

(** *** Run *)

Definition runDeferred (d : Deferred) (s : State) : State :=
  match d with
  | DHandleCrash => emit CHandleCrash s
  | DShutDown => emit CShutDown (set_queue (workqueue.ShutDown (queue s)) s)
  | DClose i =>
      emit (CClose i)
           (set_live (filter (fun j => negb (Informer_eqb i j)) (live s)) s)
  end.

(** [return] inside [Run]: the deferred calls, last deferred first. *)
Definition returnFromRun (s : State) : State :=
  set_pc Returned
    (fold_left (fun s' d => runDeferred d s') (defers s) (set_defers [] s)).

(** [ch := make(chan struct{}); defer close(ch); go d.<i>.Run(ch)]. *)
Definition startInformer (i : Informer) (s : State) : State :=
  emit (CInformerRun i)
       (set_live (i :: live s) (set_defers (DClose i :: defers s) s)).

(** [if !cache.WaitForCacheSync(ch, ...) { runtime.HandleError(...); return }]
    and what follows on success. *)
Definition waitForCacheSync (i : Informer) (synced : bool) (msg : string)
    (next : State -> State) (s : State) : State :=
  let s1 := emit (CWaitForCacheSync i synced) s in
  if synced then next s1 else returnFromRun (emit (CHandleError msg) s1).

(** The head of the loop of [wait.Until]: return when [stopCh] is closed,
    else call [d.runWorker]. *)
Definition untilLoop (s : State) : State :=
  if stopCh s then returnFromRun s else set_pc InWorker s.

(** The environment's and the scheduler's choices.  [LUpdate] and [LTimer]
    invoke the callbacks and run them to their end in one step; [LDeliver]
    and [LFire] only invoke them, and [LInstr] runs them statement by
    statement, in any order among the invocations in flight. *)
Inductive Label :=
| LRun                                  (* Run is called *)
| LSync (synced : bool)                 (* the current WaitForCacheSync returns *)
| LUpdate (i : Informer) (old new : Object)  (* informer i delivers an update *)
| LTimer                                (* the timer fires *)
| LWork (o : Oracle)                    (* one iteration of the worker loop *)
| LWake                                 (* wait.Until's period or stop wakes it *)
| LStop                                 (* the caller closes stopCh *)
| LDeliver (i : Informer) (old new : Object)
                                        (* informer i delivers an update: its
                                           handlers are invoked *)
| LFire                                 (* the timer fires: its callback is
                                           invoked *)
| LInstr (n : nat).                     (* the invocation n in flight runs its
                                           next statement *)

(** Every handler registered on [i] runs, in registration order. *)
Fixpoint deliver (hs : list (Informer * Handler)) (i : Informer)
    (old new : Object) (s : State) : option State :=
  match hs with
  | [] => Some s
  | (j, h) :: hs' =>
      if Informer_eqb i j then
        match UpdateFunc h old new (captured s) with
        | Some r => deliver hs' i old new (ranCallback r s)
        | None => None
        end
      else deliver hs' i old new s
  end.

Definition step (l : Label) (s : State) : option State :=
  match l with
  | LRun =>
      match pc s with
      | Created =>
          let s1 := set_defers (DShutDown :: DHandleCrash :: defers s) s in
          let s2 := emit (CPrintln "Starting descheduler") s1 in
          Some (set_pc WaitNodeSync (startInformer nodeInformer s2))
      | _ => None
      end
  | LSync synced =>
      match pc s with
      | WaitNodeSync =>
          Some (waitForCacheSync nodeInformer synced
                  "Timed out waiting for nodes caches to sync"
                  (fun s' => set_pc WaitRsSync (startInformer rsInformer s')) s)
      | WaitRsSync =>
          Some (waitForCacheSync rsInformer synced
                  "Timed out waiting for raplica sets caches to sync"
                  (fun s' => set_pc WaitPodSync (startInformer podInformer s')) s)
      | WaitPodSync =>
          Some (waitForCacheSync podInformer synced
                  "Timed out waiting for raplica sets caches to sync"
                  (fun s' =>
                     let s1 := emit (CPrintln "descheduler synced and ready") s' in
                     untilLoop (emit CRunTimer (set_timerOn true s1))) s)
      | _ => None
      end
  | LUpdate i old new =>
      if existsb (Informer_eqb i) (live s) &&
         Informer_eqb (informerOf old) i && Informer_eqb (informerOf new) i
      then deliver (handlers s) i old new s
      else None
  | LTimer =>
      if timerOn s then Some (ranCallback (timerFunc (captured s)) s) else None
  | LWork o =>
      match pc s with
      | InWorker =>
          match processNextItem o s with
          | None => None
          | Some (true, s') => Some s'
          | Some (false, s') =>
              Some (if stopCh s' then returnFromRun s' else set_pc BetweenWorkers s')
          end
      | _ => None
      end
  | LWake =>
      match pc s with
      | BetweenWorkers => Some (untilLoop s)
      | _ => None
      end
  | LStop => Some (set_stopCh true s)
  | LDeliver i old new =>
      if existsb (Informer_eqb i) (live s) &&
         Informer_eqb (informerOf old) i && Informer_eqb (informerOf new) i
      then
        match handlerCodes (handlers s) i old new with
        | Some codes =>
            Some (set_frames (fold_left (fun fs code => pushFrame code fs)
                                        codes (frames s)) s)
        | None => None
        end
      else None
  | LFire =>
      if timerOn s then Some (set_frames (pushFrame timerCode (frames s)) s)
      else None
  | LInstr n =>
      match nth_error (frames s) n with
      | Some (i :: rest) =>
          Some (set_frames
                  (setFrame n (if continues i s then rest else []) (frames s))
                  (effect i s))
      | _ => None
      end
  end.

(** An execution: the labels taken one after the other. *)
Fixpoint exec (ls : list Label) (s : State) : option State :=
  match ls with
  | [] => Some s
  | l :: ls' =>
      match step l s with
      | Some s' => exec ls' s'
      | None => None
      end
  end.

(** The number of statements an invocation with [code] to run executes when
    it runs to its end from [s] with nothing in between. *)
Fixpoint ranStatements (code : list Instr) (s : State) : nat :=
  match code with
  | [] => 0
  | i :: rest =>
      S (if continues i s then ranStatements rest (effect i s) else 0)
  end.

(** The schedule in which the invocation [n] in flight, with [code] to run,
    runs to its end with no statement of another invocation in between. *)
Definition uninterrupted (code : list Instr) (n : nat) (s : State)
  : list Label :=
  repeat (LInstr n) (ranStatements code s).

(** The statement-level schedule a label stands for: an update or a timer
    fire invokes the callback, which then runs uninterrupted as the last
    invocation in flight; any other label is a step of its own. *)
Definition schedule (l : Label) (s : State) : list Label :=
  match l with
  | LUpdate i old new =>
      LDeliver i old new ::
      match handlerCodes (handlers s) i old new with
      | Some [code] => uninterrupted code (length (frames s)) s
      | _ => []
      end
  | LTimer => LFire :: uninterrupted timerCode (length (frames s)) s
  | _ => [l]
  end.

(** An execution with every update and timer fire replaced by its
    schedule. *)
Fixpoint expand (ls : list Label) (s : State) : list Label :=
  match ls with
  | [] => []
  | l :: ls' =>
      (schedule l s ++
       match step l s with Some s' => expand ls' s' | None => [] end)%list
  end.

(** The labels that run a whole callback in one step. *)
Definition isAtomic (l : Label) : bool :=
  match l with LUpdate _ _ _ | LTimer => true | _ => false end.

(** The label delivers a node update from a node that is not ready to one
    that is. *)
Definition isTransition (l : Label) : bool :=
  match l with
  | LUpdate _ (ONode old) (ONode new) | LDeliver _ (ONode old) (ONode new) =>
      negb (IsReady old) && IsReady new
  | _ => false
  end.

(** The events handed to [queue.Add], read off a log. *)
Fixpoint added (cs : list Call) : list Event :=
  match cs with
  | [] => []
  | CAdd item :: cs' => item :: added cs'
  | _ :: cs' => added cs'
  end.

Definition isGet (c : Call) : bool :=
  match c with CGet _ => true | _ => false end.
Definition isDone (c : Call) : bool :=
  match c with CDone _ => true | _ => false end.
Definition isIsTriggered (c : Call) : bool :=
  match c with CIsTriggered _ => true | _ => false end.
Definition isRetryCall (c : Call) : bool :=
  match c with
  | CAddRateLimited _ | CForget _ | CNumRequeues _ => true
  | _ => false
  end.

(** The cache-sync waits that returned, with their results, read off a log. *)
Fixpoint syncs (cs : list Call) : list (Informer * bool) :=
  match cs with
  | [] => []
  | CWaitForCacheSync i synced :: cs' => (i, synced) :: syncs cs'
  | _ :: cs' => syncs cs'
  end.

(** The call a deferred entry makes when [Run] returns. *)
Definition deferredCall (d : Deferred) : Call :=
  match d with
  | DHandleCrash => CHandleCrash
  | DShutDown => CShutDown
  | DClose i => CClose i
  end.

(** [Run] is inside [wait.Until]: the state the spec calls Running. *)
Definition running (s : State) : bool :=
  match pc s with InWorker | BetweenWorkers => true | _ => false end.

(** The resource types the three callbacks write. *)
Definition knownResourceType (e : Event) : bool :=
  String.eqb (resourceType e) "timer" || String.eqb (resourceType e) "node" ||
  String.eqb (resourceType e) "replicaSet".

(** *** Invariants of the executions *)

Definition allSynced : list (Informer * bool) :=
  [(nodeInformer, true); (rsInformer, true); (podInformer, true)].

(** How far [Run] got, against what the log says of the cache-sync waits,
    of the timer and of the deferred [ShutDown]. *)
Definition startupInv (s : State) : Prop :=
  match pc s with
  | Created => syncs (calls s) = [] /\ timerOn s = false
  | WaitNodeSync =>
      syncs (calls s) = [] /\ timerOn s = false /\ In DShutDown (defers s)
  | WaitRsSync =>
      syncs (calls s) = [(nodeInformer, true)] /\ timerOn s = false /\
      In DShutDown (defers s)
  | WaitPodSync =>
      syncs (calls s) = [(nodeInformer, true); (rsInformer, true)] /\
      timerOn s = false /\ In DShutDown (defers s)
  | InWorker | BetweenWorkers =>
      syncs (calls s) = allSynced /\ In DShutDown (defers s)
  | Returned =>
      (syncs (calls s) = allSynced \/
       (timerOn s = false /\
        (syncs (calls s) = [(nodeInformer, false)] \/
         syncs (calls s) = [(nodeInformer, true); (rsInformer, false)] \/
         syncs (calls s) =
         [(nodeInformer, true); (rsInformer, true); (podInformer, false)]))) /\
      workqueue.shuttingDown (queue s) = true /\ In CShutDown (calls s)
  end.

(** The event types and the resource types the three callbacks write. *)
Definition isEventType (t : string) : bool :=
  String.eqb t "onTime" || String.eqb t "getReady" || String.eqb t "rsUpdate".
Definition isResourceType (t : string) : bool :=
  String.eqb t "timer" || String.eqb t "node" || String.eqb t "replicaSet".

(** An event with an empty namespace whose eventType and resourceType were
    both written by a callback. *)
Definition fieldsKnown (e : Event) : bool :=
  String.eqb (namespace e) "" && isEventType (eventType e) &&
  isResourceType (resourceType e).

(** What an invocation in flight has still to run is in order: it writes
    event and resource types of the callbacks only, and when it reaches its
    [Add] both fields of [newEvent] have been written, by itself or by
    another invocation.  [ke] and [kr] tell whether they are written now. *)
Fixpoint frameOk (ke kr : bool) (f : list Instr) : bool :=
  match f with
  | [] => true
  | IWriteEventType t :: rest => isEventType t && frameOk true kr rest
  | IWriteResourceType t :: rest => isResourceType t && frameOk ke true rest
  | IAdd :: rest => ke && kr && frameOk ke kr rest
  | _ :: rest => frameOk ke kr rest
  end.

(** The handlers are those [CreateDescheduler] registered, the invocations
    in flight are in order, and every event that reached the queue has an
    empty namespace and an eventType and a resourceType a callback wrote. *)
Definition eventsInv (s : State) : Prop :=
  handlers s = registered /\
  namespace (newEvent (captured s)) = "" /\
  forallb (frameOk (isEventType (eventType (newEvent (captured s))))
                   (isResourceType (resourceType (newEvent (captured s)))))
          (frames s) = true /\
  forallb fieldsKnown (workqueue.pending (queue s)) = true /\
  forallb fieldsKnown (workqueue.processing (queue s)) = true /\
  forallb fieldsKnown (added (calls s)) = true.

(** What a callback run to its end does to [newEvent]: the namespace stays
    empty, a field once written stays written, and what it adds has both
    fields written. *)
Definition grows (c : Captured) (r : Captured * list Event) : Prop :=
  namespace (newEvent (fst r)) = "" /\
  (isEventType (eventType (newEvent c)) = true ->
   isEventType (eventType (newEvent (fst r))) = true) /\
  (isResourceType (resourceType (newEvent c)) = true ->
   isResourceType (resourceType (newEvent (fst r))) = true) /\
  forallb fieldsKnown (snd r) = true.

(** The statement writes the eventType of the node callback. *)
Definition writesGetReady (i : Instr) : bool :=
  match i with IWriteEventType t => String.eqb t "getReady" | _ => false end.

Definition isGetReady (e : Event) : bool := String.eqb (eventType e) "getReady".

(** No trace of the node callback: [newEvent] is no getReady event, no
    invocation in flight is about to make it one, and none was handed to
    [queue.Add]. *)
Definition noGetReady (s : State) : Prop :=
  handlers s = registered /\
  isGetReady (newEvent (captured s)) = false /\
  forallb (fun f => negb (existsb writesGetReady f)) (frames s) = true /\
  forallb (fun e => negb (isGetReady e)) (added (calls s)) = true.

End Descheduler.

Arguments ONode {Node ReplicaSet Pod} n.
Arguments OReplicaSet {Node ReplicaSet Pod} r.
Arguments OPod {Node ReplicaSet Pod} p.
Arguments informerOf {Node ReplicaSet Pod} o.
Arguments nodeUpdateFunc {Node ReplicaSet Pod} IsReady MetaNamespaceKeyFunc old new c.
Arguments nodeUpdates {Node ReplicaSet Pod} IsReady MetaNamespaceKeyFunc us c.
Arguments rsUpdateFunc {Node ReplicaSet Pod} MetaNamespaceKeyFunc old new c.
Arguments UpdateFunc {Node ReplicaSet Pod} IsReady MetaNamespaceKeyFunc h old new c.
Arguments CPrintln {Node} msg.
Arguments CPrintNodes {Node} nodes.
Arguments CHandleError {Node} msg.
Arguments CHandleCrash {Node}.
Arguments CInformerRun {Node} i.
Arguments CWaitForCacheSync {Node} i synced.
Arguments CClose {Node} i.
Arguments CRunTimer {Node}.
Arguments CAdd {Node} item.
Arguments CGet {Node} item.
Arguments CDone {Node} item.
Arguments CShutDown {Node}.
Arguments CAddRateLimited {Node} item.
Arguments CForget {Node} item.
Arguments CNumRequeues {Node} item.
Arguments CIsTriggered {Node} r.
Arguments CGetReadyNodes {Node} r.
Arguments mkState {Node} queue captured handlers calls pc live timerOn stopCh defers
  frames.
Arguments frames {Node} s.
Arguments set_frames {Node} fs s.
Arguments effect {Node} i s.
Arguments continues {Node} i s.
Arguments runCode {Node} code s.
Arguments nodeCode {Node ReplicaSet Pod} IsReady MetaNamespaceKeyFunc old new.
Arguments rsCode {Node ReplicaSet Pod} MetaNamespaceKeyFunc old new.
Arguments handlerCode {Node ReplicaSet Pod} IsReady MetaNamespaceKeyFunc h old new.
Arguments handlerCodes {Node ReplicaSet Pod} IsReady MetaNamespaceKeyFunc hs i old new.
Arguments LDeliver {Node ReplicaSet Pod} i old new.
Arguments LFire {Node ReplicaSet Pod}.
Arguments LInstr {Node ReplicaSet Pod} n.
Arguments queue {Node} s.
Arguments captured {Node} s.
Arguments handlers {Node} s.
Arguments calls {Node} s.
Arguments pc {Node} s.
Arguments live {Node} s.
Arguments timerOn {Node} s.
Arguments stopCh {Node} s.
Arguments defers {Node} s.
Arguments set_queue {Node} q s.
Arguments set_captured {Node} c s.
Arguments emit {Node} c s.
Arguments set_pc {Node} p s.
Arguments set_live {Node} l s.
Arguments set_timerOn {Node} b s.
Arguments set_stopCh {Node} b s.
Arguments set_defers {Node} d s.
Arguments queueAdd {Node} item s.
Arguments ranCallback {Node} r s.
Arguments mkOracle {Node} isTriggered getReadyNodes.
Arguments isTriggered {Node} o.
Arguments getReadyNodes {Node} o.
Arguments processNodeItem {Node} o ev s.
Arguments processNextItem {Node} o s.
Arguments between {Node} o event.
Arguments WorkerReturned {Node} s.
Arguments WorkerBlocked {Node} s.
Arguments WorkerLooping {Node} s.
Arguments runWorker {Node} os s.
Arguments runDeferred {Node} d s.
Arguments returnFromRun {Node} s.
Arguments startInformer {Node} i s.
Arguments waitForCacheSync {Node} i synced msg next s.
Arguments untilLoop {Node} s.
Arguments LRun {Node ReplicaSet Pod}.
Arguments LSync {Node ReplicaSet Pod} synced.
Arguments LUpdate {Node ReplicaSet Pod} i old new.
Arguments LTimer {Node ReplicaSet Pod}.
Arguments LWork {Node ReplicaSet Pod} o.
Arguments LWake {Node ReplicaSet Pod}.
Arguments LStop {Node ReplicaSet Pod}.
Arguments deliver {Node ReplicaSet Pod} IsReady MetaNamespaceKeyFunc hs i old new s.
Arguments step {Node ReplicaSet Pod} IsReady MetaNamespaceKeyFunc l s.
Arguments exec {Node ReplicaSet Pod} IsReady MetaNamespaceKeyFunc ls s.
Arguments added {Node} cs.
Arguments syncs {Node} cs.
Arguments deferredCall {Node} d.
Arguments startupInv {Node} s.
Arguments eventsInv {Node} s.
Arguments noGetReady {Node} s.
Arguments ranStatements {Node} code s.
Arguments uninterrupted {Node ReplicaSet Pod} code n s.
Arguments schedule {Node ReplicaSet Pod} IsReady MetaNamespaceKeyFunc l s.
Arguments expand {Node ReplicaSet Pod} IsReady MetaNamespaceKeyFunc ls s.
Arguments isAtomic {Node ReplicaSet Pod} l.
Arguments isTransition {Node ReplicaSet Pod} IsReady l.
Arguments isGet {Node} c.
Arguments isDone {Node} c.
Arguments isIsTriggered {Node} c.
Arguments isRetryCall {Node} c.
Arguments running {Node} s.

(** ** A small cluster to run the model on *)

Module Sample.

(** The object metadata [MetaNamespaceKeyFunc] reads; [hasMeta = false] is an
    object [meta.Accessor] rejects. *)
Record Meta := mkMeta {
  metaNamespace : string;
  metaName : string;
  hasMeta : bool
}.

Record node := mkNode { nodeMeta : Meta; nodeReady : bool }.

Definition Obj := Object node Meta Meta.

Definition keyOf (m : Meta) : string * error :=
  if hasMeta m then
    (if String.eqb (metaNamespace m) "" then metaName m
     else metaNamespace m ++ "/" ++ metaName m, None)
  else ("", Some "object has no meta").

Definition keyFunc (o : Obj) : string * error :=
  match o with
  | ONode n => keyOf (nodeMeta n)
  | OReplicaSet r => keyOf r
  | OPod p => keyOf p
  end.

Definition n1_down : node := mkNode (mkMeta "" "n1" true) false.
Definition n1_up : node := mkNode (mkMeta "" "n1" true) true.
Definition web : Meta := mkMeta "default" "web" true.
Definition bad_rs : Meta := mkMeta "default" "db" false.
Definition pod1 : Meta := mkMeta "default" "web-0" true.

(** What [CreateDescheduler] returns when neither the client nor the timer
    fails. *)
Definition created : State node :=
  mkState workqueue.NewRateLimitingQueue initialCaptured registered
          [CPrintln "Using kubeconfig file:"] Created [] false false [] [].

(** All three caches sync. *)
Definition startup : list (Label node Meta Meta) :=
  [LRun; LSync true; LSync true; LSync true].

Definition n1_event : Event := mkEvent "n1" "getReady" "" "node".

(** The ready-node provider fails. *)
Definition providerFails : Oracle node :=
  mkOracle true ([], Some "list failed").
Definition providerWorks : Oracle node :=
  mkOracle true ([n1_up], None).
Definition notTriggered : Oracle node :=
  mkOracle false ([], None).

(** A state whose queue holds the single event [e]. *)
Definition holding (e : Event) : State node :=
  set_pc InWorker
    (set_queue (workqueue.mkQueue [e] [] [] false) created).

(** The node n1 becomes ready; a pod update. *)
Definition n1_ready : Label node Meta Meta :=
  LUpdate nodeInformer (ONode n1_down) (ONode n1_up).
Definition pod_update : Label node Meta Meta :=
  LUpdate podInformer (OPod pod1) (OPod pod1).

Definition run (ls : list (Label node Meta Meta)) : State node :=
  match exec nodeReady keyFunc ls created with
  | Some s => s
  | None => created
  end.

(** After a startup in which all caches synced. *)
Definition synced : State node := Eval vm_compute in run startup.

(** The pod informer's cache-sync wait is pending. *)
Definition waitingPod : State node :=
  Eval vm_compute in run [LRun; LSync true; LSync true].

(** n1 became ready during the startup, then the replica set cache timed
    out. *)
Definition abortLabels : list (Label node Meta Meta) :=
  [LRun; LSync true; n1_ready; LSync false].
Definition aborted : State node := Eval vm_compute in run abortLabels.

(** n1 became ready, the worker handled the event, then the timer fired. *)
Definition timerAfterNode : list (Label node Meta Meta) :=
  startup ++ [n1_ready; LWork notTriggered; LTimer].
Definition timerFired : State node := Eval vm_compute in run timerAfterNode.

End Sample.

(** The labels of the statement-level steps. *)
Definition isFine {Node ReplicaSet Pod : Type} (l : Label Node ReplicaSet Pod)
  : Prop :=
  match l with LDeliver _ _ _ | LFire | LInstr _ => True | _ => False end.

(** ** More of the log and of the state of [Run] *)

Section Observations.

Variable Node : Type.

(** The informers started by [go d.<i>.Run(ch)], in order, read off a log. *)
Fixpoint starts (cs : list (Call Node)) : list Informer :=
  match cs with
  | [] => []
  | CInformerRun i :: cs' => i :: starts cs'
  | _ :: cs' => starts cs'
  end.

(** The events acknowledged by [queue.Done], in order, read off a log. *)
Fixpoint acked (cs : list (Call Node)) : list Event :=
  match cs with
  | [] => []
  | CDone item :: cs' => item :: acked cs'
  | _ :: cs' => acked cs'
  end.

Definition isGetReadyNodes (c : Call Node) : bool :=
  match c with CGetReadyNodes _ => true | _ => false end.

(** The informers whose stop channel is open at a control point of [Run],
    most recently started first. *)
Definition liveAt (p : Pc) : list Informer :=
  match p with
  | Created | Returned => []
  | WaitNodeSync => [nodeInformer]
  | WaitRsSync => [rsInformer; nodeInformer]
  | WaitPodSync | InWorker | BetweenWorkers =>
      [podInformer; rsInformer; nodeInformer]
  end.

(** The deferred calls of [Run] at a control point, most recent first. *)
Definition deferredAt (p : Pc) : list Deferred :=
  match p with
  | Created | Returned => []
  | _ => (map DClose (liveAt p) ++ [DShutDown; DHandleCrash])%list
  end.

(** The informer whose cache-sync wait is pending at a control point. *)
Definition waitingFor (p : Pc) : list Informer :=
  match p with
  | WaitNodeSync => [nodeInformer]
  | WaitRsSync => [rsInformer]
  | WaitPodSync => [podInformer]
  | _ => []
  end.

(** The control point of [Run] against the informers, the deferred calls,
    the queue's shutdown flag, and the worker's and informers' calls in the
    log. *)
Definition runInv (s : State Node) : Prop :=
  pc s <> BetweenWorkers /\
  live s = liveAt (pc s) /\
  defers s = deferredAt (pc s) /\
  workqueue.shuttingDown (queue s) =
  match pc s with Returned => true | _ => false end /\
  (pc s <> InWorker -> existsb isGet (calls s) = false) /\
  (pc s = Returned -> syncs (calls s) = allSynced -> stopCh s = true) /\
  starts (calls s) = (map fst (syncs (calls s)) ++ waitingFor (pc s))%list.

End Observations.

Arguments starts {Node} cs.
Arguments acked {Node} cs.
Arguments isGetReadyNodes {Node} c.
Arguments runInv {Node} s.

(** ** The command line: [cmd/root.go] *)

Module cmd.

(** The package variables the flags are bound to. *)
Record Globals := mkGlobals {
  configFile : string;
  kubeConfigFile : string;
  dryRun : bool
}.

(** The defaults [init] registers the three flags with. *)
Definition flagDefaults : Globals := mkGlobals "" "" false.

(** The calls [initConfig] makes to [homedir], [fmt], [os] and [viper]. *)
Inductive Call :=
| HomedirDir
| Println (msg : string)
| Exit (code : nat)
| SetConfigFile (file : string)
| AddConfigPath (dir : string)
| SetConfigName (name : string)
| AutomaticEnv
| ReadInConfig
| ConfigFileUsed
| PrintUsing (file : string).

Definition isViper (c : Call) : bool :=
  match c with
  | SetConfigFile _ | AddConfigPath _ | SetConfigName _ | AutomaticEnv
  | ReadInConfig | ConfigFileUsed => true
  | _ => false
  end.

Section InitConfig.

(** [path.Join] of two elements. *)
Variable pathJoin : string -> string -> string.

(** [initConfig].  [home] is what [homedir.Dir] returns, [readErr] what
    [viper.ReadInConfig] returns, [used] what [viper.ConfigFileUsed]
    returns.  The result is the package variables when [initConfig]
    returns, [None] when it ends the process with [os.Exit], and the calls
    made. *)
Definition initConfig (home : string * error) (readErr : error) (used : string)
    (g : Globals) : option Globals * list Call :=
  match snd home with
  | Some e => (None, [HomedirDir; Println e; Exit 1])
  | None =>
      let g1 :=
        if String.eqb (kubeConfigFile g) ""
        then mkGlobals (configFile g) (pathJoin (fst home) ".kube/config")
                       (dryRun g)
        else g in
      let source :=
        if negb (String.eqb (configFile g1) "")
        then [SetConfigFile (configFile g1)]
        else [AddConfigPath (fst home); SetConfigName ".descheduler"] in
      (Some g1,
       (HomedirDir :: source ++ [AutomaticEnv; ReadInConfig] ++
        match readErr with
        | None => [ConfigFileUsed; PrintUsing used]
        | Some _ => []
        end)%list)
  end.

End InitConfig.

End cmd.

(** ** More of the sample cluster *)

Module Cluster.

(** Three events differing in their keys, one of each kind. *)
Definition rs_event : Event := mkEvent "default/web" "rsUpdate" "" "replicaSet".
Definition timer_event : Event := mkEvent "" "onTime" "" "timer".

(** The worker is inside its loop and the queue holds three events. *)
Definition busy : State Sample.node :=
  set_queue (workqueue.mkQueue [Sample.n1_event; rs_event; timer_event] [] [] false)
            Sample.synced.

Definition answers : list (Oracle Sample.node) :=
  [Sample.providerFails; Sample.providerWorks; Sample.notTriggered;
   Sample.providerWorks].

(** The replica set web is updated. *)
Definition web_update : Label Sample.node Sample.Meta Sample.Meta :=
  LUpdate rsInformer (OReplicaSet Sample.web) (OReplicaSet Sample.web).

(** The caller closes the stop channel while the pod cache is awaited, and
    the cache then syncs. *)
Definition stopEarly : list (Label Sample.node Sample.Meta Sample.Meta) :=
  [LRun; LSync true; LSync true; LStop; LSync true].
Definition stoppedEarly : State Sample.node :=
  Eval vm_compute in Sample.run stopEarly.

(** The node cache times out. *)
Definition nodeTimeout : list (Label Sample.node Sample.Meta Sample.Meta) :=
  [LRun; LSync false].
Definition nodeTimedOut : State Sample.node :=
  Eval vm_compute in Sample.run nodeTimeout.

(** The rs cache is awaited. *)
Definition waitingRs : State Sample.node :=
  Eval vm_compute in Sample.run [LRun; LSync true].

(** After the startup the timer has fired once. *)
Definition timerOnce : State Sample.node :=
  Eval vm_compute in Sample.run (Sample.startup ++ [LTimer])%list.

(** The state an execution from [s] ends in. *)
Definition from (s : State Sample.node)
    (ls : list (Label Sample.node Sample.Meta Sample.Meta)) : State Sample.node :=
  match exec Sample.nodeReady Sample.keyFunc ls s with
  | Some s' => s'
  | None => s
  end.

(** With the worker loop running: the stop channel is closed, n1 becomes
    ready, the worker handles the event, the timer fires. *)
Definition afterStop : list (Label Sample.node Sample.Meta Sample.Meta) :=
  [LStop; Sample.n1_ready; LWork Sample.providerFails; LTimer].
Definition stillWorking : State Sample.node :=
  Eval vm_compute in from Sample.synced afterStop.

(** The rs cache times out. *)
Definition rsTimedOut : State Sample.node :=
  Eval vm_compute in from waitingRs [LSync false].

(** After the early stop the timer fires and the stop channel is closed
    again. *)
Definition lateTimer : list (Label Sample.node Sample.Meta Sample.Meta) :=
  [LTimer; LStop].
Definition stoppedThenTimer : State Sample.node :=
  Eval vm_compute in from stoppedEarly lateTimer.

Definition timerTwice : State Sample.node :=
  Eval vm_compute in from timerOnce [LTimer].

Definition n1Ready : State Sample.node :=
  Eval vm_compute in from Sample.synced [Sample.n1_ready].

Definition webUpdated : State Sample.node :=
  Eval vm_compute in from Sample.synced [web_update].

(** Invocations of the handlers: n1 becomes ready, the replica set web is
    updated, a replica set whose key cannot be derived is updated. *)
Definition n1_delivered : Label Sample.node Sample.Meta Sample.Meta :=
  LDeliver nodeInformer (ONode Sample.n1_down) (ONode Sample.n1_up).
Definition web_delivered : Label Sample.node Sample.Meta Sample.Meta :=
  LDeliver rsInformer (OReplicaSet Sample.web) (OReplicaSet Sample.web).
Definition bad_rs_delivered : Label Sample.node Sample.Meta Sample.Meta :=
  LDeliver rsInformer (OReplicaSet Sample.bad_rs) (OReplicaSet Sample.bad_rs).

(** n1 becomes ready and its handler writes the key, [err], the eventType
    and the resourceType; the replica set web is updated and its handler
    runs all its six statements; the node handler then tests [err] and
    calls [Add]. *)
Definition racedReady : list (Label Sample.node Sample.Meta Sample.Meta) :=
  (Sample.startup ++
   [n1_delivered; LInstr 0; LInstr 0; LInstr 0; LInstr 0;
    web_delivered; LInstr 1; LInstr 1; LInstr 1; LInstr 1; LInstr 1; LInstr 1;
    LInstr 0; LInstr 0])%list.
Definition readyLost : State Sample.node :=
  Eval vm_compute in Sample.run racedReady.

(** A replica set whose key cannot be derived is updated and its handler
    writes the key and [err]; n1 becomes ready and its handler runs all its
    six statements; the replica set handler then writes the eventType and
    the resourceType and tests [err]. *)
Definition racedKeyFailure : list (Label Sample.node Sample.Meta Sample.Meta) :=
  (Sample.startup ++
   [bad_rs_delivered; LInstr 0; LInstr 0;
    n1_delivered; LInstr 1; LInstr 1; LInstr 1; LInstr 1; LInstr 1; LInstr 1;
    LInstr 0; LInstr 0; LInstr 0])%list.
Definition keyFailurePassed : State Sample.node :=
  Eval vm_compute in Sample.run racedKeyFailure.
(** The replica set handler runs the statement it is left with. *)
Definition keyFailureAdded : State Sample.node :=
  Eval vm_compute in from keyFailurePassed [LInstr 0].
(** The same update with its handler run with nothing in between. *)
Definition keyFailureAlone : State Sample.node :=
  Eval vm_compute in
    from Sample.synced
         [bad_rs_delivered; LInstr 0; LInstr 0; LInstr 0; LInstr 0; LInstr 0].

(** n1 becomes ready and its handler writes the key, [err] and the
    eventType; the timer fires and its callback runs all its three
    statements; the node handler then writes the resourceType, tests [err]
    and calls [Add]. *)
Definition timerInsideNode : list (Label Sample.node Sample.Meta Sample.Meta) :=
  (Sample.startup ++
   [n1_delivered; LInstr 0; LInstr 0; LInstr 0;
    LFire; LInstr 1; LInstr 1; LInstr 1;
    LInstr 0; LInstr 0; LInstr 0])%list.
Definition mixedAdded : State Sample.node :=
  Eval vm_compute in Sample.run timerInsideNode.

End Cluster.

(** * Properties *)

Local Open Scope list_scope.

Section Callbacks.

Context {Node ReplicaSet Pod : Type}.
Variable IsReady : Node -> bool.
Variable MetaNamespaceKeyFunc : Object Node ReplicaSet Pod -> string * error.

Local Abbreviation nodeUpdate := (nodeUpdateFunc IsReady MetaNamespaceKeyFunc).
Local Abbreviation rsUpdate := (rsUpdateFunc MetaNamespaceKeyFunc).

(** The event the node callback builds: every field but [namespace] is
    written before the [Add]. *)
Lemma nodeUpdateFunc_adds (old new : Node) (c : Captured) :
  snd (nodeUpdate old new c) =
  if negb (IsReady old) && IsReady new then
    match snd (MetaNamespaceKeyFunc (ONode old)) with
    | None => [mkEvent (fst (MetaNamespaceKeyFunc (ONode old))) "getReady"
                       (namespace (newEvent c)) "node"]
    | Some _ => []
    end
  else [].
Proof.
  unfold nodeUpdateFunc.
  destruct (negb (IsReady old) && IsReady new); [|reflexivity].
  destruct (MetaNamespaceKeyFunc (ONode old)) as [k [msg|]]; reflexivity.
Qed.

Lemma rsUpdateFunc_adds (old new : Object Node ReplicaSet Pod) (c : Captured) :
  snd (rsUpdate old new c) =
  match snd (MetaNamespaceKeyFunc old) with
  | None => [mkEvent (fst (MetaNamespaceKeyFunc old)) "rsUpdate"
                     (namespace (newEvent c)) "replicaSet"]
  | Some _ => []
  end.
Proof.
  unfold rsUpdateFunc.
  destruct (MetaNamespaceKeyFunc old) as [k [msg|]]; reflexivity.
Qed.

Lemma timerFunc_adds (c : Captured) :
  snd (timerFunc c) =
  [mkEvent (key (newEvent c)) "onTime" (namespace (newEvent c)) "timer"].
Proof. reflexivity. Qed.

(** No callback ever writes [namespace]. *)
Lemma nodeUpdateFunc_namespace (old new : Node) (c : Captured) :
  namespace (newEvent (fst (nodeUpdate old new c))) = namespace (newEvent c).
Proof.
  unfold nodeUpdateFunc.
  destruct (negb (IsReady old) && IsReady new); [|reflexivity].
  destruct (MetaNamespaceKeyFunc (ONode old)) as [k [msg|]]; reflexivity.
Qed.

(** Whatever the captured variables hold when it starts, the node callback
    run to its end with nothing in between hands an event with eventType
    getReady and resourceType node to [queue.Add] if and only if the old
    node is not ready, the new node is ready and the key of the old node
    could be derived; it hands the queue at most one event, and that event
    carries the derived key. *)
Lemma nodeUpdateFunc_getReady_iff (old new : Node) (c : Captured) :
  ((exists e, In e (snd (nodeUpdate old new c)) /\
              eventType e = "getReady" /\ resourceType e = "node")
   <-> (IsReady old = false /\ IsReady new = true /\
        snd (MetaNamespaceKeyFunc (ONode old)) = None)) /\
  (forall e, In e (snd (nodeUpdate old new c)) ->
             e = mkEvent (fst (MetaNamespaceKeyFunc (ONode old))) "getReady"
                         (namespace (newEvent c)) "node") /\
  length (snd (nodeUpdate old new c)) <= 1.
Proof.
  rewrite nodeUpdateFunc_adds.
  assert (Hnil : forall P : Event -> Prop,
             (exists e : Event, In e [] /\ P e) -> False)
    by (intros P [e [[] _]]).
  destruct (IsReady old), (IsReady new); simpl;
    destruct (snd (MetaNamespaceKeyFunc (ONode old))) as [msg|]; simpl;
    (split; [split|split; [|lia]]);
    try (intros H; exfalso; exact (Hnil _ H));
    try (intros (H1 & H2 & H3); discriminate);
    try (intros e H; contradiction).
  - intros _. repeat split.
  - intros _. eexists. split; [left; reflexivity|split; reflexivity].
  - intros e [<-|[]]. reflexivity.
Qed.

Lemma nodeUpdates_adds (us : list (Node * Node)) (c : Captured) :
  snd (nodeUpdates IsReady MetaNamespaceKeyFunc us c) =
  flat_map (fun u =>
              if negb (IsReady (fst u)) && IsReady (snd u) then
                match snd (MetaNamespaceKeyFunc (ONode (fst u))) with
                | None => [mkEvent (fst (MetaNamespaceKeyFunc (ONode (fst u))))
                                   "getReady" (namespace (newEvent c)) "node"]
                | Some _ => []
                end
              else []) us.
Proof.
  revert c. induction us as [|[old new] us IH]; intros c; [reflexivity|].
  simpl. rewrite IH, nodeUpdateFunc_adds, nodeUpdateFunc_namespace. reflexivity.
Qed.

(** A failed key derivation leaves either keyed callback without an
    [Add], when the callback runs with nothing in between. *)
Lemma key_failure_no_add (c : Captured) (msg : string) :
  (forall old new, snd (MetaNamespaceKeyFunc (ONode old)) = Some msg ->
                   snd (nodeUpdate old new c) = []) /\
  (forall old new, snd (MetaNamespaceKeyFunc old) = Some msg ->
                   snd (rsUpdate old new c) = []).
Proof.
  split; intros old new H.
  - rewrite nodeUpdateFunc_adds, H. destruct (negb _ && _); reflexivity.
  - rewrite rsUpdateFunc_adds, H. reflexivity.
Qed.

(** A callback that runs with nothing in between overwrites the captured
    [err] before it reads it: what it adds does not depend on the [err] it
    starts with. *)
Lemma adds_ignore_err (c : Captured) (e : error) :
  snd (timerFunc (mkCaptured (newEvent c) e)) = snd (timerFunc c) /\
  (forall old new, snd (nodeUpdate old new (mkCaptured (newEvent c) e)) =
                   snd (nodeUpdate old new c)) /\
  (forall old new, snd (rsUpdate old new (mkCaptured (newEvent c) e)) =
                   snd (rsUpdate old new c)).
Proof.
  split; [reflexivity|split; intros old new].
  - rewrite !nodeUpdateFunc_adds. reflexivity.
  - rewrite !rsUpdateFunc_adds. reflexivity.
Qed.

End Callbacks.

Section Worker.

Context {Node : Type}.
Implicit Types (s : State Node) (o : Oracle Node) (ev : Event).

Lemma Get_item (q q' : workqueue.Queue) ev :
  workqueue.Get q = workqueue.GetItem ev q' ->
  workqueue.pending q = ev :: workqueue.pending q' /\
  workqueue.processing q' = ev :: workqueue.processing q /\
  workqueue.retries q' = workqueue.retries q /\
  workqueue.shuttingDown q' = workqueue.shuttingDown q.
Proof.
  unfold workqueue.Get. destruct (workqueue.pending q) as [|x rest] eqn:Hp.
  - destruct (workqueue.shuttingDown q); discriminate.
  - intros H. injection H as -> <-. simpl. repeat split; reflexivity.
Qed.

Lemma Get_shutdown (q : workqueue.Queue) :
  workqueue.Get q = workqueue.GetShutdown <->
  workqueue.pending q = [] /\ workqueue.shuttingDown q = true.
Proof.
  unfold workqueue.Get. destruct (workqueue.pending q) as [|x rest].
  - destruct (workqueue.shuttingDown q); split; try discriminate; auto.
    intros [_ H]. discriminate.
  - split; [discriminate|intros [H _]; discriminate].
Qed.

(** One iteration that dequeues [ev], in full: only the queue and the log
    change. *)
Lemma processNextItem_item o s ev (q' : workqueue.Queue) :
  workqueue.Get (queue s) = workqueue.GetItem ev q' ->
  processNextItem o s =
  Some (true,
        mkState (workqueue.Done ev q') (captured s) (handlers s)
                (calls s ++ CGet (Some ev) :: between o ev ++ [CDone ev])
                (pc s) (live s) (timerOn s) (stopCh s) (defers s) (frames s)).
Proof.
  intros H. unfold processNextItem, between, processNodeItem. rewrite H.
  destruct (String.eqb (resourceType ev) "node" ||
            String.eqb (resourceType ev) "timer");
    [destruct (isTriggered o); [destruct (getReadyNodes o) as [ns [msg|]]|]|];
    simpl; unfold emit; simpl; repeat rewrite <- app_assoc; reflexivity.
Qed.

Lemma processNextItem_false o s s' :
  processNextItem o s = Some (false, s') ->
  workqueue.Get (queue s) = workqueue.GetShutdown /\ s' = emit (CGet None) s.
Proof.
  unfold processNextItem.
  destruct (workqueue.Get (queue s)) as [ev q'| |]; try discriminate.
  intros H. injection H as <-. split; reflexivity.
Qed.

Lemma between_no_Get_Done o ev :
  existsb isGet (between o ev) = false /\ existsb isDone (between o ev) = false /\
  existsb isRetryCall (between o ev) = false.
Proof.
  unfold between.
  destruct (String.eqb (resourceType ev) "node" ||
            String.eqb (resourceType ev) "timer");
    [destruct (isTriggered o); [destruct (snd (getReadyNodes o))|]|];
    repeat split; reflexivity.
Qed.

Lemma runWorker_returned (os : list (Oracle Node)) s s' :
  runWorker os s = WorkerReturned s' ->
  workqueue.shuttingDown (queue s') = true /\ workqueue.pending (queue s') = [].
Proof.
  revert s. induction os as [|o os IH]; intros s; simpl; [discriminate|].
  destruct (processNextItem o s) as [[[|] s1]|] eqn:Hp; try discriminate.
  - apply IH.
  - intros H. injection H as <-.
    apply processNextItem_false in Hp as [Hg ->]. simpl.
    apply Get_shutdown in Hg as [? ?]. split; assumption.
Qed.

(** C5.  Whenever the worker dequeues an event, it calls the trigger
    predicate if and only if the event's resourceType is node or timer; for
    every other resourceType (replicaSet included) the iteration consists of
    the Get and the Done of that event and nothing else. *)
Theorem trigger_iff_node_or_timer o s ev (q' : workqueue.Queue) :
  workqueue.Get (queue s) = workqueue.GetItem ev q' ->
  exists s' mid,
    processNextItem o s = Some (true, s') /\
    calls s' = calls s ++ CGet (Some ev) :: mid ++ [CDone ev] /\
    (existsb isIsTriggered mid = true <->
     (resourceType ev = "node" \/ resourceType ev = "timer")) /\
    (resourceType ev <> "node" -> resourceType ev <> "timer" ->
     mid = [] /\ queue s' = workqueue.Done ev q').
Proof.
  intros H. eexists. exists (between o ev).
  split; [apply processNextItem_item; exact H|].
  split; [reflexivity|]. unfold between.
  destruct (String.eqb_spec (resourceType ev) "node") as [Hn|Hn];
    destruct (String.eqb_spec (resourceType ev) "timer") as [Ht|Ht]; simpl;
    (split; [split|]); auto; try contradiction; try discriminate.
  intros [?|?]; contradiction.
Qed.

(** C7.  Whenever the worker dequeues an event, [processNextItem] returns
    true whatever the trigger predicate and the ready-node provider answer;
    its calls are the Get, calls that are neither Get nor Done, and then
    exactly one Done of the dequeued event, so that Done precedes the next
    Get of the loop; and the loop [runWorker] is left only when the queue is
    shut down and empty. *)
Theorem done_once_then_continue o (os : list (Oracle Node)) s ev
    (q' : workqueue.Queue) :
  workqueue.Get (queue s) = workqueue.GetItem ev q' ->
  (exists s' mid,
     processNextItem o s = Some (true, s') /\
     calls s' = calls s ++ CGet (Some ev) :: mid ++ [CDone ev] /\
     existsb isGet mid = false /\ existsb isDone mid = false /\
     runWorker (o :: os) s = runWorker os s') /\
  (forall s'', runWorker (o :: os) s = WorkerReturned s'' ->
     workqueue.shuttingDown (queue s'') = true /\
     workqueue.pending (queue s'') = []).
Proof.
  intros H. split; [|intros s''; apply runWorker_returned].
  eexists. exists (between o ev).
  pose proof (processNextItem_item o s ev q' H) as Hp.
  split; [exact Hp|]. split; [reflexivity|].
  destruct (between_no_Get_Done o ev) as (Hg & Hd & _).
  repeat split; try assumption. simpl. rewrite Hp. reflexivity.
Qed.

(** C2, as amended.  When the worker dequeues a node or timer event, the
    trigger predicate holds and the ready-node provider fails, the worker
    prints the failure, acknowledges the event with Done and continues: the
    iteration logs exactly Get, IsTriggered, GetReadyNodes, Println, Done.
    The event is not put back (no AddRateLimited, no Forget, no
    NumRequeues), its retry counter is unchanged, and it is gone from the
    queue. *)
Theorem provider_failure_drops_event o s ev (q' : workqueue.Queue) (msg : string) :
  workqueue.Get (queue s) = workqueue.GetItem ev q' ->
  resourceType ev = "node" \/ resourceType ev = "timer" ->
  isTriggered o = true ->
  snd (getReadyNodes o) = Some msg ->
  exists s',
    processNextItem o s = Some (true, s') /\
    calls s' = calls s ++ [CGet (Some ev); CIsTriggered true;
                           CGetReadyNodes (Some msg);
                           CPrintln "Failed to get ready nodes:"; CDone ev] /\
    queue s' = workqueue.Done ev q' /\
    workqueue.pending (queue s') = tl (workqueue.pending (queue s)) /\
    workqueue.NumRequeues ev (queue s') = workqueue.NumRequeues ev (queue s).
Proof.
  intros H Hr Ht Hm. eexists.
  split; [apply processNextItem_item; exact H|]. simpl.
  apply Get_item in H as (Hp & _ & Hre & _).
  unfold between. rewrite Ht, Hm, Hp.
  replace (String.eqb (resourceType ev) "node" ||
           String.eqb (resourceType ev) "timer") with true.
  - unfold workqueue.NumRequeues. simpl. rewrite Hre. repeat split.
  - symmetry. apply orb_true_iff.
    destruct Hr as [->| ->]; [left|right]; reflexivity.
Qed.

End Worker.

Section System.

Context {Node ReplicaSet Pod : Type}.
Variable IsReady : Node -> bool.
Variable MetaNamespaceKeyFunc : Object Node ReplicaSet Pod -> string * error.
Implicit Types (s : State Node) (l : Label Node ReplicaSet Pod) (ev : Event).

Local Abbreviation step' := (step IsReady MetaNamespaceKeyFunc).
Local Abbreviation exec' := (exec IsReady MetaNamespaceKeyFunc).

(** *** Executions *)

Lemma exec_app (ls1 ls2 : list (Label Node ReplicaSet Pod)) s :
  exec' (ls1 ++ ls2) s =
  match exec' ls1 s with
  | Some s' => exec' ls2 s'
  | None => None
  end.
Proof.
  revert s. induction ls1 as [|l ls1 IH]; intros s; simpl; [reflexivity|].
  destruct (step' l s); [apply IH|reflexivity].
Qed.

(** A property kept by every step holds along every execution. *)
Lemma exec_invariant (P : State Node -> Prop) :
  (forall l s s', P s -> step' l s = Some s' -> P s') ->
  forall ls s s', P s -> exec' ls s = Some s' -> P s'.
Proof.
  intros Hstep. induction ls as [|l ls IH]; intros s s' HP; simpl.
  - intros H. injection H as <-. exact HP.
  - destruct (step' l s) as [s1|] eqn:Hs; [|discriminate].
    apply IH. eapply Hstep; eassumption.
Qed.

(** *** The log, read through [syncs] and [added] *)

Lemma syncs_app (cs1 cs2 : list (Call Node)) :
  syncs (cs1 ++ cs2) = syncs cs1 ++ syncs cs2.
Proof.
  induction cs1 as [|c cs1 IH]; [reflexivity|].
  destruct c; simpl; rewrite IH; reflexivity.
Qed.

Lemma added_app (cs1 cs2 : list (Call Node)) :
  added (cs1 ++ cs2) = added cs1 ++ added cs2.
Proof.
  induction cs1 as [|c cs1 IH]; [reflexivity|].
  destruct c; simpl; rewrite IH; reflexivity.
Qed.

Lemma syncs_In (cs : list (Call Node)) (i : Informer) (b : bool) :
  In (CWaitForCacheSync i b) cs <-> In (i, b) (syncs cs).
Proof.
  induction cs as [|c cs IH]; [reflexivity|].
  destruct c; simpl; rewrite <- IH; split;
    try (intros [H|H]; [discriminate|exact H]); try (intros H; right; exact H).
  - intros [H|H]; [left; congruence|right; exact H].
  - intros [H|H]; [left; congruence|right; exact H].
Qed.

Lemma added_In (cs : list (Call Node)) ev :
  In (CAdd ev) cs <-> In ev (added cs).
Proof.
  induction cs as [|c cs IH]; [reflexivity|].
  destruct c; simpl; rewrite <- IH; split;
    try (intros [H|H]; [discriminate|exact H]); try (intros H; right; exact H).
  - intros [H|H]; [left; congruence|right; exact H].
  - intros [H|H]; [left; congruence|right; exact H].
Qed.

Lemma syncs_map_CAdd (evs : list Event) : syncs (map (@CAdd Node) evs) = [].
Proof. induction evs; [reflexivity|assumption]. Qed.

Lemma added_map_CAdd (evs : list Event) : added (map (@CAdd Node) evs) = evs.
Proof. induction evs as [|e evs IH]; [reflexivity|simpl; rewrite IH; reflexivity]. Qed.

Lemma syncs_deferred (ds : list Deferred) :
  syncs (map (@deferredCall Node) ds) = [].
Proof. induction ds as [|[| |i] ds IH]; [reflexivity|assumption..]. Qed.

Lemma added_deferred (ds : list Deferred) :
  added (map (@deferredCall Node) ds) = [].
Proof. induction ds as [|[| |i] ds IH]; [reflexivity|assumption..]. Qed.

Lemma syncs_between (o : Oracle Node) ev : syncs (between o ev) = [].
Proof.
  unfold between.
  destruct (_ || _); [destruct (isTriggered o);
                      [destruct (snd (getReadyNodes o))|]|]; reflexivity.
Qed.

Lemma added_between (o : Oracle Node) ev : added (between o ev) = [].
Proof.
  unfold between.
  destruct (_ || _); [destruct (isTriggered o);
                      [destruct (snd (getReadyNodes o))|]|]; reflexivity.
Qed.

(** *** What a callback and a return do to the state, in full *)

Lemma ranCallback_eq (r : Captured * list Event) s :
  ranCallback r s =
  mkState (fold_left (fun q item => workqueue.Add item q) (snd r) (queue s))
          (fst r) (handlers s) (calls s ++ map CAdd (snd r)) (pc s) (live s)
          (timerOn s) (stopCh s) (defers s) (frames s).
Proof.
  unfold ranCallback. destruct r as [c evs]. simpl.
  assert (G : forall s0 : State Node,
             fold_left (fun s' item => queueAdd item s') evs s0 =
             mkState (fold_left (fun q item => workqueue.Add item q) evs (queue s0))
                     (captured s0) (handlers s0) (calls s0 ++ map CAdd evs)
                     (pc s0) (live s0) (timerOn s0) (stopCh s0) (defers s0) (frames s0)).
  { induction evs as [|e evs IH]; intros s0; simpl.
    - rewrite app_nil_r. destruct s0; reflexivity.
    - rewrite IH. simpl. rewrite <- app_assoc. reflexivity. }
  rewrite G. reflexivity.
Qed.

Lemma returnFromRun_eq s :
  returnFromRun s =
  mkState (fold_left (fun q d => match d with
                                 | DShutDown => workqueue.ShutDown q
                                 | _ => q
                                 end) (defers s) (queue s))
          (captured s) (handlers s)
          (calls s ++ map deferredCall (defers s)) Returned
          (fold_left (fun lv d => match d with
                                  | DClose i =>
                                      filter (fun j => negb (Informer_eqb i j)) lv
                                  | _ => lv
                                  end) (defers s) (live s))
          (timerOn s) (stopCh s) [] (frames s).
Proof.
  unfold returnFromRun.
  assert (G : forall (ds : list Deferred) (s0 : State Node),
             fold_left (fun s' d => runDeferred d s') ds s0 =
             mkState (fold_left (fun q d => match d with
                                            | DShutDown => workqueue.ShutDown q
                                            | _ => q
                                            end) ds (queue s0))
                     (captured s0) (handlers s0)
                     (calls s0 ++ map deferredCall ds) (pc s0)
                     (fold_left (fun lv d => match d with
                                  | DClose i =>
                                      filter (fun j => negb (Informer_eqb i j)) lv
                                  | _ => lv
                                  end) ds (live s0))
                     (timerOn s0) (stopCh s0) (defers s0) (frames s0)).
  { induction ds as [|d ds IH]; intros s0; simpl.
    - rewrite app_nil_r. destruct s0; reflexivity.
    - rewrite IH. destruct d; simpl; rewrite <- app_assoc; reflexivity. }
  rewrite G. reflexivity.
Qed.

Lemma Add_shuttingDown (evs : list Event) (q : workqueue.Queue) :
  workqueue.shuttingDown (fold_left (fun q item => workqueue.Add item q) evs q) =
  workqueue.shuttingDown q.
Proof.
  revert q. induction evs as [|e evs IH]; intros q; simpl; [reflexivity|].
  rewrite IH. unfold workqueue.Add.
  destruct (workqueue.shuttingDown q) eqn:Hs; [exact Hs|].
  destruct (existsb _ _); [exact Hs|reflexivity].
Qed.

Lemma Add_processing (evs : list Event) (q : workqueue.Queue) :
  workqueue.processing (fold_left (fun q item => workqueue.Add item q) evs q) =
  workqueue.processing q.
Proof.
  revert q. induction evs as [|e evs IH]; intros q; simpl; [reflexivity|].
  rewrite IH. unfold workqueue.Add.
  destruct (workqueue.shuttingDown q); [reflexivity|].
  destruct (existsb _ _); reflexivity.
Qed.

(** Adding never removes a pending item, and adds only what it was given. *)
Lemma Add_pending (P : Event -> bool) (evs : list Event) (q : workqueue.Queue) :
  forallb P evs = true -> forallb P (workqueue.pending q) = true ->
  forallb P (workqueue.pending
               (fold_left (fun q item => workqueue.Add item q) evs q)) = true.
Proof.
  revert q. induction evs as [|e evs IH]; intros q; simpl; [auto|].
  intros He Hq. apply andb_true_iff in He as [He Hevs].
  apply IH; [exact Hevs|]. unfold workqueue.Add.
  destruct (workqueue.shuttingDown q); [exact Hq|].
  destruct (existsb _ _); [exact Hq|]. simpl.
  rewrite forallb_app, Hq. simpl. rewrite He. reflexivity.
Qed.

Lemma ShutDown_fold (ds : list Deferred) (q : workqueue.Queue) :
  let q' := fold_left (fun q d => match d with
                                  | DShutDown => workqueue.ShutDown q
                                  | _ => q
                                  end) ds q in
  workqueue.pending q' = workqueue.pending q /\
  workqueue.processing q' = workqueue.processing q /\
  (In DShutDown ds \/ workqueue.shuttingDown q = true ->
   workqueue.shuttingDown q' = true).
Proof.
  revert q. induction ds as [|d ds IH]; intros q; simpl.
  - repeat split. intros [[]|H]; exact H.
  - destruct (IH (match d with DShutDown => workqueue.ShutDown q | _ => q end))
      as (Hp & Hq & Hs).
    rewrite Hp, Hq. destruct d; simpl; repeat split;
      intros H; apply Hs; simpl; try (right; reflexivity);
      destruct H as [[H|H]|H]; try discriminate; auto.
Qed.

(** *** Callbacks only add events of the three known resource types *)

Lemma UpdateFunc_known (h : Handler) (old new : Object Node ReplicaSet Pod)
    (c : Captured) (r : Captured * list Event) :
  UpdateFunc IsReady MetaNamespaceKeyFunc h old new c = Some r ->
  forallb knownResourceType (snd r) = true.
Proof.
  destruct h; simpl.
  - destruct old as [o| |]; try discriminate.
    destruct new as [n| |]; try discriminate.
    intros H. injection H as <-. rewrite nodeUpdateFunc_adds.
    destruct (negb _ && _); [|reflexivity].
    destruct (snd (MetaNamespaceKeyFunc (ONode o))); reflexivity.
  - intros H. injection H as <-. rewrite rsUpdateFunc_adds.
    destruct (snd (MetaNamespaceKeyFunc old)); reflexivity.
Qed.

(** A delivery changes the captured variables and adds to the queue; all
    else stays. *)
Lemma deliver_shape (hs : list (Informer * Handler)) (i : Informer)
    (old new : Object Node ReplicaSet Pod) s s' :
  deliver IsReady MetaNamespaceKeyFunc hs i old new s = Some s' ->
  exists (evs : list Event) (c : Captured),
    forallb knownResourceType evs = true /\
    s' = mkState (fold_left (fun q item => workqueue.Add item q) evs (queue s))
                 c (handlers s) (calls s ++ map CAdd evs) (pc s) (live s)
                 (timerOn s) (stopCh s) (defers s) (frames s).
Proof.
  revert s. induction hs as [|[j h] hs IH]; intros s; simpl.
  - intros H. injection H as <-. exists [], (captured s). simpl.
    rewrite app_nil_r. split; [reflexivity|destruct s; reflexivity].
  - destruct (Informer_eqb i j); [|apply IH].
    destruct (UpdateFunc _ _ h old new (captured s)) as [r|] eqn:Hu;
      [|discriminate].
    intros H. apply IH in H as (evs & c & Hk & ->).
    rewrite ranCallback_eq. simpl.
    exists (snd r ++ evs), c. split.
    + rewrite forallb_app, Hk, (UpdateFunc_known _ _ _ _ _ Hu). reflexivity.
    + rewrite fold_left_app, map_app, <- app_assoc. reflexivity.
Qed.

Lemma forallb_filter_keeps (P f : Event -> bool) (evs : list Event) :
  forallb P evs = true -> forallb P (filter f evs) = true.
Proof.
  induction evs as [|e evs IH]; simpl; [auto|].
  intros H. apply andb_true_iff in H as [He Hevs].
  destruct (f e); simpl; [rewrite He|]; auto.
Qed.

(** What a step of the worker's iteration does, whichever way [Get] went. *)
Lemma processNextItem_shape (o : Oracle Node) s (b : bool) s' :
  processNextItem o s = Some (b, s') ->
  (b = false /\ workqueue.Get (queue s) = workqueue.GetShutdown /\
   s' = emit (CGet None) s) \/
  (b = true /\ exists ev q',
      workqueue.Get (queue s) = workqueue.GetItem ev q' /\
      s' = mkState (workqueue.Done ev q') (captured s) (handlers s)
                   (calls s ++ CGet (Some ev) :: between o ev ++ [CDone ev])
                   (pc s) (live s) (timerOn s) (stopCh s) (defers s) (frames s)).
Proof.
  destruct (workqueue.Get (queue s)) as [ev q'| |] eqn:Hg.
  - rewrite (processNextItem_item o s ev q' Hg). intros H. injection H as <- <-.
    right. split; [reflexivity|]. exists ev, q'. split; reflexivity.
  - unfold processNextItem. rewrite Hg. intros H. injection H as <- <-.
    left. repeat split.
  - unfold processNextItem. rewrite Hg. discriminate.
Qed.

(** An invocation that starts, and a statement of an invocation in flight,
    change the captured variables, the invocations in flight and, through
    at most one [Add], the queue; all else stays. *)
Lemma fine_shape l s s' :
  isFine l ->
  step' l s = Some s' ->
  exists (evs : list Event) (c : Captured) (fs : list (list Instr)),
    length evs <= 1 /\
    s' = mkState (fold_left (fun q item => workqueue.Add item q) evs (queue s))
                 c (handlers s) (calls s ++ map CAdd evs) (pc s) (live s)
                 (timerOn s) (stopCh s) (defers s) fs.
Proof.
  assert (Hs : forall (c : Captured) (fs : list (list Instr)),
             set_frames fs (set_captured c s) =
             mkState (fold_left (fun q item => workqueue.Add item q) []
                                (queue s))
                     c (handlers s) (calls s ++ map CAdd []) (pc s) (live s)
                     (timerOn s) (stopCh s) (defers s) fs)
    by (intros c fs; simpl; rewrite app_nil_r; reflexivity).
  assert (Hc : set_captured (captured s) s = s) by (destruct s; reflexivity).
  destruct l; simpl; try contradiction; intros _.
  - destruct (_ && _); [|discriminate].
    destruct (handlerCodes _ _ _ _ _ _) as [codes|]; [|discriminate].
    intros H. injection H as <-.
    exists [], (captured s). eexists. split; [simpl; lia|].
    rewrite <- Hs, Hc. reflexivity.
  - destruct (timerOn s); [|discriminate].
    intros H. injection H as <-.
    exists [], (captured s). eexists. split; [simpl; lia|].
    rewrite <- Hs, Hc. reflexivity.
  - destruct (nth_error (frames s) n) as [[|i rest]|]; try discriminate.
    intros H. injection H as <-.
    destruct i; simpl;
      try (eexists [], _, _; split; [simpl; lia|]; rewrite <- Hs; reflexivity).
    exists [newEvent (captured s)], (captured s). eexists.
    split; [simpl; lia|]. reflexivity.
Qed.

Lemma startupInv_producer (evs : list Event) (c : Captured)
    (fs : list (list Instr)) s :
  startupInv s ->
  startupInv (mkState (fold_left (fun q item => workqueue.Add item q) evs (queue s))
                      c (handlers s) (calls s ++ map CAdd evs) (pc s) (live s)
                      (timerOn s) (stopCh s) (defers s) fs).
Proof.
  intros Hinv. unfold startupInv in *. simpl.
  rewrite syncs_app, syncs_map_CAdd, app_nil_r, Add_shuttingDown.
  destruct (pc s); try exact Hinv.
  destruct Hinv as (H1 & H2 & H3). repeat split; auto.
  apply in_or_app. left. exact H3.
Qed.

Ltac log_simpl :=
  simpl;
  repeat rewrite ?syncs_app, ?added_app, ?syncs_deferred, ?added_deferred,
    ?syncs_map_CAdd, ?added_map_CAdd, ?syncs_between, ?added_between,
    ?app_nil_r; simpl.

Lemma startupInv_return s :
  In DShutDown (defers s) ->
  (syncs (calls s) = allSynced \/
   (timerOn s = false /\
    (syncs (calls s) = [(nodeInformer, false)] \/
     syncs (calls s) = [(nodeInformer, true); (rsInformer, false)] \/
     syncs (calls s) =
     [(nodeInformer, true); (rsInformer, true); (podInformer, false)]))) ->
  startupInv (returnFromRun s).
Proof.
  intros Hd Hs. rewrite returnFromRun_eq. unfold startupInv. log_simpl.
  split; [exact Hs|]. split.
  - apply ShutDown_fold. left. exact Hd.
  - apply in_or_app. right.
    change (@CShutDown Node) with (@deferredCall Node DShutDown).
    apply in_map. exact Hd.
Qed.

Lemma startupInv_step l s s' :
  startupInv s -> step' l s = Some s' -> startupInv s'.
Proof.
  intros Hinv Hstep.
  assert (Hfine : isFine l -> startupInv s').
  { intros Hl. apply fine_shape in Hstep as (evs & c & fs & _ & ->); [|exact Hl].
    apply startupInv_producer. exact Hinv. }
  destruct l; try (apply Hfine; exact I); clear Hfine; simpl in Hstep.
  - (* LRun *)
    unfold startupInv in Hinv. destruct (pc s) eqn:Hpc; try discriminate.
    injection Hstep as <-. unfold startupInv. log_simpl.
    destruct Hinv as [Hs Ht]; rewrite ?Hs, ?Ht. auto.
  - (* LSync *)
    unfold startupInv in Hinv.
    destruct (pc s) eqn:Hpc; try discriminate; injection Hstep as <-;
      unfold waitForCacheSync; destruct synced.
    + unfold startupInv. log_simpl. destruct Hinv as (Hs & Ht & Hd); rewrite ?Hs, ?Ht. auto.
    + apply startupInv_return; log_simpl; destruct Hinv as (Hs & Ht & Hd); rewrite ?Hs, ?Ht; auto.
    + unfold startupInv. log_simpl. destruct Hinv as (Hs & Ht & Hd); rewrite ?Hs, ?Ht. auto.
    + apply startupInv_return; log_simpl; destruct Hinv as (Hs & Ht & Hd); rewrite ?Hs, ?Ht; auto.
    + unfold untilLoop. simpl. destruct (stopCh s).
      * apply startupInv_return; log_simpl; destruct Hinv as (Hs & Ht & Hd); rewrite ?Hs, ?Ht; auto.
      * unfold startupInv. log_simpl. destruct Hinv as (Hs & Ht & Hd); rewrite ?Hs, ?Ht. auto.
    + apply startupInv_return; log_simpl; destruct Hinv as (Hs & Ht & Hd); rewrite ?Hs, ?Ht;
        auto 6.
  - (* LUpdate *)
    destruct (_ && _); [|discriminate].
    apply deliver_shape in Hstep as (evs & c & _ & ->).
    unfold startupInv in *. simpl.
    rewrite syncs_app, syncs_map_CAdd, app_nil_r, Add_shuttingDown.
    destruct (pc s); try exact Hinv.
    destruct Hinv as (H1 & H2 & H3). repeat split; auto.
    apply in_or_app. left. exact H3.
  - (* LTimer *)
    destruct (timerOn s) eqn:Ht; [|discriminate]. injection Hstep as <-.
    generalize (timerFunc (captured s)). intros r.
    rewrite ranCallback_eq. unfold startupInv in *. simpl.
    rewrite syncs_app, syncs_map_CAdd, app_nil_r, Add_shuttingDown.
    destruct (pc s); try exact Hinv.
    destruct Hinv as (H1 & H2 & H3). repeat split; auto.
    apply in_or_app. left. exact H3.
  - (* LWork *)
    unfold startupInv in Hinv. destruct (pc s) eqn:Hpc; try discriminate.
    destruct (processNextItem o s) as [[b s1]|] eqn:Hp; [|discriminate].
    apply processNextItem_shape in Hp as [(-> & Hg & ->)|(-> & ev & q' & Hg & ->)].
    + injection Hstep as <-. simpl. destruct (stopCh s).
      * apply startupInv_return; log_simpl; destruct Hinv; auto.
      * unfold startupInv. log_simpl. exact Hinv.
    + injection Hstep as <-. unfold startupInv. simpl. rewrite Hpc.
      rewrite syncs_app. simpl. rewrite syncs_app, syncs_between. simpl.
      rewrite app_nil_r. exact Hinv.
  - (* LWake *)
    unfold startupInv in Hinv. destruct (pc s) eqn:Hpc; try discriminate.
    injection Hstep as <-. unfold untilLoop. destruct (stopCh s).
    + apply startupInv_return; destruct Hinv; auto.
    + unfold startupInv. simpl. exact Hinv.
  - (* LStop *)
    injection Hstep as <-. exact Hinv.
Qed.

(** What an update does once the handlers are those of
    [CreateDescheduler]. *)
Lemma step_update_registered (i : Informer)
    (old new : Object Node ReplicaSet Pod) s s' :
  handlers s = registered ->
  step' (LUpdate i old new) s = Some s' ->
  match i with
  | nodeInformer =>
      exists o n, old = ONode o /\ new = ONode n /\
        s' = ranCallback (nodeUpdateFunc IsReady MetaNamespaceKeyFunc o n
                                         (captured s)) s
  | rsInformer =>
      s' = ranCallback (rsUpdateFunc MetaNamespaceKeyFunc old new (captured s)) s
  | podInformer => s' = s
  end.
Proof.
  intros Hh. simpl. rewrite Hh.
  destruct (existsb (Informer_eqb i) (live s)); [|discriminate].
  destruct i, old as [o|r|p]; try discriminate;
    destruct new as [n|r'|p']; try discriminate; simpl;
    intros H; injection H as <-; try reflexivity.
  exists o, n. repeat split.
Qed.

Lemma frameOk_mono (ke kr ke' kr' : bool) (f : list Instr) :
  (ke = true -> ke' = true) -> (kr = true -> kr' = true) ->
  frameOk ke kr f = true -> frameOk ke' kr' f = true.
Proof.
  revert ke kr ke' kr'. induction f as [|i f IH]; intros ke kr ke' kr' He Hr;
    [reflexivity|].
  destruct i; simpl; try (apply IH; assumption).
  - intros H. apply andb_true_iff in H as [-> H]. simpl.
    revert H. apply IH; auto.
  - intros H. apply andb_true_iff in H as [-> H]. simpl.
    revert H. apply IH; auto.
  - intros H. apply andb_true_iff in H as [H H3].
    apply andb_true_iff in H as [H1 H2].
    rewrite (He H1), (Hr H2). simpl. revert H3. apply IH; auto.
Qed.

Lemma frames_mono (ke kr ke' kr' : bool) (fs : list (list Instr)) :
  (ke = true -> ke' = true) -> (kr = true -> kr' = true) ->
  forallb (frameOk ke kr) fs = true -> forallb (frameOk ke' kr') fs = true.
Proof.
  intros He Hr. rewrite !forallb_forall. intros H f Hf.
  apply (frameOk_mono ke kr); auto.
Qed.

(** The bodies of the callbacks are in order whatever [newEvent] holds. *)
Lemma codes_ok (ke kr : bool) :
  frameOk ke kr timerCode = true /\
  (forall old new, frameOk ke kr (nodeCode IsReady MetaNamespaceKeyFunc old new)
                   = true) /\
  (forall old new, frameOk ke kr (rsCode MetaNamespaceKeyFunc old new) = true).
Proof.
  split; [reflexivity|split; intros old new].
  - unfold nodeCode. destruct (negb _ && _); reflexivity.
  - reflexivity.
Qed.

(** The state after a producer took its turn: new captured variables, new
    invocations in flight, some more events added. *)
Lemma eventsInv_update (evs : list Event) (c : Captured)
    (fs : list (list Instr)) s :
  eventsInv s ->
  namespace (newEvent c) = "" ->
  forallb (frameOk (isEventType (eventType (newEvent c)))
                   (isResourceType (resourceType (newEvent c)))) fs = true ->
  forallb fieldsKnown evs = true ->
  eventsInv (mkState (fold_left (fun q item => workqueue.Add item q) evs (queue s))
                     c (handlers s) (calls s ++ map CAdd evs) (pc s) (live s)
                     (timerOn s) (stopCh s) (defers s) fs).
Proof.
  intros (Hh & _ & _ & Hp & Hq & Ha) Hn Hf Hk. unfold eventsInv. simpl.
  rewrite Add_processing, added_app, added_map_CAdd, forallb_app, Ha, Hk.
  repeat split; auto. apply Add_pending; assumption.
Qed.

Lemma callbacks_grow (c : Captured) :
  namespace (newEvent c) = "" ->
  grows c (timerFunc c) /\
  (forall old new, grows c (nodeUpdateFunc IsReady MetaNamespaceKeyFunc old new c)) /\
  (forall old new, grows c (rsUpdateFunc MetaNamespaceKeyFunc old new c)).
Proof.
  intros Hn. unfold grows. split; [|split; intros old new].
  - unfold timerFunc, fieldsKnown. simpl. rewrite Hn. repeat split.
  - unfold nodeUpdateFunc. destruct (negb _ && _); [|repeat split; auto].
    destruct (MetaNamespaceKeyFunc (ONode old)) as [k [msg|]];
      unfold fieldsKnown; simpl; rewrite Hn; repeat split.
  - unfold rsUpdateFunc.
    destruct (MetaNamespaceKeyFunc old) as [k [msg|]];
      unfold fieldsKnown; simpl; rewrite Hn; repeat split.
Qed.

Lemma eventsInv_ran (r : Captured * list Event) s :
  eventsInv s -> grows (captured s) r -> eventsInv (ranCallback r s).
Proof.
  intros Hinv (Hn & He & Hr & Hk). rewrite ranCallback_eq.
  apply eventsInv_update; try assumption.
  destruct Hinv as (_ & _ & Hf & _). revert Hf. apply frames_mono; assumption.
Qed.

Lemma eventsInv_return s : eventsInv s -> eventsInv (returnFromRun s).
Proof.
  intros (Hh & Hn & Hf & Hp & Hq & Ha). rewrite returnFromRun_eq.
  unfold eventsInv. simpl.
  destruct (ShutDown_fold (defers s) (queue s)) as (-> & -> & _).
  rewrite added_app, added_deferred, app_nil_r. repeat split; assumption.
Qed.

Lemma In_firstn {A : Type} (n : nat) (l : list A) (x : A) :
  In x (firstn n l) -> In x l.
Proof.
  revert l. induction n as [|n IH]; intros [|a l]; simpl; try contradiction.
  intros [H|H]; [left; exact H|right; apply IH; exact H].
Qed.

Lemma In_skipn {A : Type} (n : nat) (l : list A) (x : A) :
  In x (skipn n l) -> In x l.
Proof.
  revert l. induction n as [|n IH]; intros [|a l]; simpl; auto.
Qed.

Lemma forallb_setFrame (P : list Instr -> bool) (n : nat) (rest : list Instr)
    (fs : list (list Instr)) :
  forallb P fs = true -> P rest = true -> forallb P (setFrame n rest fs) = true.
Proof.
  intros Hfs Hr. unfold setFrame. rewrite !forallb_app.
  rewrite forallb_forall in Hfs.
  assert (H1 : forallb P (firstn n fs) = true)
    by (apply forallb_forall; intros x Hx; apply Hfs;
        exact (In_firstn _ _ _ Hx)).
  assert (H2 : forallb P (skipn (S n) fs) = true)
    by (apply forallb_forall; intros x Hx; apply Hfs;
        exact (In_skipn _ _ _ Hx)).
  rewrite H1, H2. destruct rest; simpl; [reflexivity|].
  rewrite Hr. reflexivity.
Qed.

Lemma forallb_pushFrame (P : list Instr -> bool) (code : list Instr)
    (fs : list (list Instr)) :
  forallb P fs = true -> P code = true -> forallb P (pushFrame code fs) = true.
Proof.
  intros Hfs Hc. unfold pushFrame. destruct code; [exact Hfs|].
  rewrite forallb_app, Hfs. simpl. rewrite Hc. reflexivity.
Qed.

(** A statement of an invocation in flight keeps the invariant. *)
Lemma eventsInv_instr (n : nat) (i : Instr) (rest : list Instr) s :
  eventsInv s ->
  nth_error (frames s) n = Some (i :: rest) ->
  eventsInv (set_frames
               (setFrame n (if continues i s then rest else []) (frames s))
               (effect i s)).
Proof.
  intros Hinv Hn. pose proof Hinv as (Hh & Hns & Hf & Hp & Hq & Ha).
  assert (Hfr : frameOk (isEventType (eventType (newEvent (captured s))))
                        (isResourceType (resourceType (newEvent (captured s))))
                        (i :: rest) = true).
  { rewrite forallb_forall in Hf. apply Hf. eapply nth_error_In. exact Hn. }
  assert (Hs : forall (c : Captured) (fs : list (list Instr)),
             set_frames fs (set_captured c s) =
             mkState (fold_left (fun q item => workqueue.Add item q) []
                                (queue s))
                     c (handlers s) (calls s ++ map CAdd []) (pc s) (live s)
                     (timerOn s) (stopCh s) (defers s) fs)
    by (intros c fs; simpl; rewrite app_nil_r; reflexivity).
  destruct i; simpl in Hfr |- *.
  - rewrite Hs. apply eventsInv_update; auto.
    apply forallb_setFrame; assumption.
  - rewrite Hs. apply eventsInv_update; auto.
    apply forallb_setFrame; assumption.
  - apply andb_true_iff in Hfr as [Ht Hfr].
    rewrite Hs. apply eventsInv_update; auto. simpl. rewrite Ht.
    apply forallb_setFrame; [|exact Hfr].
    revert Hf. apply frames_mono; auto.
  - apply andb_true_iff in Hfr as [Ht Hfr].
    rewrite Hs. apply eventsInv_update; auto. simpl. rewrite Ht.
    apply forallb_setFrame; [|exact Hfr].
    revert Hf. apply frames_mono; auto.
  - replace s with (set_captured (captured s) s) at 3
      by (destruct s; reflexivity).
    rewrite Hs. apply eventsInv_update; auto.
    apply forallb_setFrame; [exact Hf|].
    destruct (err (captured s)); [reflexivity|exact Hfr].
  - apply andb_true_iff in Hfr as [Hk Hfr].
    apply andb_true_iff in Hk as [Hke Hkr].
    change (eventsInv
              (mkState (fold_left (fun q item => workqueue.Add item q)
                                  [newEvent (captured s)] (queue s))
                       (captured s) (handlers s)
                       (calls s ++ map CAdd [newEvent (captured s)]) (pc s)
                       (live s) (timerOn s) (stopCh s) (defers s)
                       (setFrame n rest (frames s)))).
    apply eventsInv_update; auto.
    + apply forallb_setFrame; assumption.
    + simpl. unfold fieldsKnown. rewrite Hns, Hke, Hkr. reflexivity.
Qed.

Lemma eventsInv_step l s s' :
  eventsInv s -> step' l s = Some s' -> eventsInv s'.
Proof.
  intros Hinv Hstep. pose proof Hinv as (Hh & Hns & Hf & _).
  destruct (callbacks_grow (captured s) Hns) as (Htimer & Hnode & Hrs).
  destruct (codes_ok (isEventType (eventType (newEvent (captured s))))
                     (isResourceType (resourceType (newEvent (captured s)))))
    as (Hct & Hcn & Hcr).
  assert (Hemit : forall c : Call Node,
             added [c] = [] -> eventsInv (emit c s)).
  { intros c Hc. destruct Hinv as (H1 & H2 & H3 & H4 & H5 & H6).
    unfold eventsInv. simpl. rewrite added_app, Hc, app_nil_r.
    repeat split; assumption. }
  destruct l.
  - (* LRun *)
    simpl in Hstep. destruct (pc s); try discriminate. injection Hstep as <-.
    unfold eventsInv in *. log_simpl. exact Hinv.
  - (* LSync *)
    simpl in Hstep.
    assert (He : forall (i : Informer) (msg : string),
               eventsInv (emit (CHandleError msg)
                               (emit (CWaitForCacheSync i synced) s)))
      by (intros i msg; unfold eventsInv in *; log_simpl; exact Hinv).
    destruct (pc s); try discriminate; injection Hstep as <-;
      unfold waitForCacheSync; destruct synced;
      try (apply eventsInv_return; apply He);
      try (unfold eventsInv in *; log_simpl; exact Hinv).
    unfold untilLoop. simpl. destruct (stopCh s).
    + apply eventsInv_return. unfold eventsInv in *. log_simpl. exact Hinv.
    + unfold eventsInv in *. log_simpl. exact Hinv.
  - (* LUpdate *)
    apply step_update_registered in Hstep; [|exact Hh].
    destruct i.
    + destruct Hstep as (o & n & _ & _ & ->). apply eventsInv_ran; auto.
    + subst s'. apply eventsInv_ran; auto.
    + subst s'. exact Hinv.
  - (* LTimer *)
    simpl in Hstep. destruct (timerOn s); [|discriminate].
    injection Hstep as <-. apply eventsInv_ran; auto.
  - (* LWork *)
    simpl in Hstep. destruct (pc s) eqn:Hpc; try discriminate.
    destruct (processNextItem o s) as [[b s1]|] eqn:Hp; [|discriminate].
    apply processNextItem_shape in Hp as [(-> & Hg & ->)|(-> & ev & q' & Hg & ->)];
      injection Hstep as <-.
    + assert (He : eventsInv (emit (CGet None) s)) by (apply Hemit; reflexivity).
      simpl. destruct (stopCh s);
        [apply eventsInv_return; exact He|exact He].
    + destruct Hinv as (_ & _ & _ & Hq & Hr & Ha).
      apply Get_item in Hg as (Hp1 & Hp2 & _ & _).
      rewrite Hp1 in Hq. simpl in Hq. apply andb_true_iff in Hq as [Hev Hq].
      unfold eventsInv. simpl. rewrite Hp2. simpl.
      rewrite added_app. simpl. rewrite added_app, added_between. simpl.
      rewrite app_nil_r. repeat split; auto.
      destruct (negb (Event_eqb ev ev)); simpl; [rewrite Hev; simpl|];
        apply forallb_filter_keeps; exact Hr.
  - (* LWake *)
    simpl in Hstep. destruct (pc s); try discriminate. injection Hstep as <-.
    unfold untilLoop. destruct (stopCh s);
      [apply eventsInv_return; exact Hinv|exact Hinv].
  - (* LStop *)
    simpl in Hstep. injection Hstep as <-. exact Hinv.
  - (* LDeliver *)
    unfold step in Hstep. rewrite Hh in Hstep.
    destruct (existsb (Informer_eqb i) (live s)); [|discriminate].
    destruct Hinv as (H1 & H2 & H3 & H4 & H5 & H6).
    destruct i, old as [o|r|p]; try discriminate;
      destruct new as [n|r'|p']; try discriminate;
      cbn [handlerCodes handlerCode registered Informer_eqb informerOf andb
           fold_left] in Hstep;
      injection Hstep as <-; unfold eventsInv;
      cbn [handlers captured queue calls frames set_frames];
      repeat split; auto;
      first [apply forallb_pushFrame; auto
            |rewrite forallb_app, Hf; cbn [forallb andb]; rewrite Hcr;
             reflexivity].
  - (* LFire *)
    unfold step in Hstep. destruct (timerOn s); [|discriminate].
    injection Hstep as <-.
    destruct Hinv as (H1 & H2 & H3 & H4 & H5 & H6).
    unfold eventsInv. cbn [handlers captured queue calls frames set_frames].
    repeat split; auto.
    rewrite forallb_app, Hf. cbn [forallb andb]. rewrite Hct. reflexivity.
  - (* LInstr *)
    unfold step in Hstep.
    destruct (nth_error (frames s) n) as [[|i rest]|] eqn:Hn; try discriminate.
    injection Hstep as <-. apply eventsInv_instr; assumption.
Qed.

(** Both invariants hold in every state an execution reaches from what
    [CreateDescheduler] returns. *)
Lemma reachable_inv (clientErr timerErr : error)
    (ls : list (Label Node ReplicaSet Pod)) s0 s :
  CreateDescheduler Node clientErr timerErr = inl s0 ->
  exec' ls s0 = Some s ->
  startupInv s /\ eventsInv s.
Proof.
  intros Hc He.
  assert (H0 : startupInv s0 /\ eventsInv s0).
  { unfold CreateDescheduler in Hc.
    destruct clientErr; [discriminate|]. destruct timerErr; [discriminate|].
    injection Hc as <-. split; [split; reflexivity|repeat split]. }
  refine (exec_invariant (fun x => startupInv x /\ eventsInv x) _ ls s0 s H0 He).
  intros l s1 s2 [H1 H2] Hs. split;
    [eapply startupInv_step|eapply eventsInv_step]; eassumption.
Qed.

(** Once [Run] has returned with the timer off, both stay so. *)
Lemma returned_stays (ls : list (Label Node ReplicaSet Pod)) s s' :
  pc s = Returned /\ timerOn s = false ->
  exec' ls s = Some s' ->
  pc s' = Returned /\ timerOn s' = false.
Proof.
  apply (exec_invariant (fun x => pc x = Returned /\ timerOn x = false)).
  clear. intros l s s' [Hpc Ht] Hstep.
  assert (Hfine : isFine l -> pc s' = Returned /\ timerOn s' = false).
  { intros Hl. apply fine_shape in Hstep as (evs & c & fs & _ & ->); [|exact Hl].
    split; assumption. }
  destruct l; try (apply Hfine; exact I); clear Hfine; simpl in Hstep;
    rewrite ?Hpc, ?Ht in Hstep; try discriminate.
  - destruct (_ && _); [|discriminate].
    apply deliver_shape in Hstep as (evs & c & _ & ->). split; assumption.
  - injection Hstep as <-. split; assumption.
Qed.

(** C6.  In every execution, [Run] is inside [wait.Until] (the worker loop
    runs) or the timer has been started only if the cache-sync wait of each
    of the three informers has returned true; and as soon as one such wait
    has returned false, [Run] has returned with the timer not started, and
    in no later state is the worker loop running or the timer started. *)
Theorem running_only_after_all_synced (clientErr timerErr : error)
    (ls ls' : list (Label Node ReplicaSet Pod)) s0 s s' :
  CreateDescheduler Node clientErr timerErr = inl s0 ->
  exec' ls s0 = Some s ->
  exec' ls' s = Some s' ->
  (running s = true \/ timerOn s = true ->
   forall i, In (CWaitForCacheSync i true) (calls s)) /\
  ((exists i, In (CWaitForCacheSync i false) (calls s)) ->
   pc s = Returned /\ timerOn s = false /\
   running s' = false /\ timerOn s' = false).
Proof.
  intros Hc He He'.
  destruct (reachable_inv _ _ _ _ _ Hc He) as [Hinv _].
  unfold startupInv in Hinv. split.
  - intros Hr i. apply syncs_In.
    assert (Hs : syncs (calls s) = allSynced).
    { unfold running in Hr. destruct (pc s);
        try (destruct Hinv as (_ & Ht & _); rewrite Ht in Hr;
             destruct Hr; discriminate);
        try (destruct Hinv as (_ & Ht); rewrite Ht in Hr;
             destruct Hr; discriminate);
        try (destruct Hinv as [Hs _]; exact Hs).
      destruct Hinv as [[Hs|[Ht _]] _]; [exact Hs|].
      rewrite Ht in Hr. destruct Hr; discriminate. }
    rewrite Hs. destruct i; simpl; auto.
  - intros [i Hi]. apply syncs_In in Hi.
    assert (Hr : pc s = Returned /\ timerOn s = false).
    { destruct (pc s);
        try (destruct Hinv as (Hs & _); rewrite Hs in Hi; simpl in Hi;
             repeat (destruct Hi as [Hi|Hi]; [discriminate|]);
             contradiction).
      destruct Hinv as [[Hs|[Ht _]] _]; [|split; [reflexivity|exact Ht]].
      rewrite Hs in Hi. simpl in Hi.
      repeat (destruct Hi as [Hi|Hi]; [discriminate|]). contradiction. }
    destruct (returned_stays _ _ _ Hr He') as [Hpc' Ht'].
    destruct Hr as [Hpc Ht]. repeat split; try assumption.
    unfold running. rewrite Hpc'. reflexivity.
Qed.

Lemma knownResourceType_spec ev :
  knownResourceType ev = true ->
  resourceType ev = "timer" \/ resourceType ev = "node" \/
  resourceType ev = "replicaSet".
Proof.
  unfold knownResourceType. intros H.
  apply orb_true_iff in H as [H|H]; [apply orb_true_iff in H as [H|H]|];
    apply String.eqb_eq in H; auto.
Qed.

Lemma fieldsKnown_resourceType ev :
  fieldsKnown ev = true -> knownResourceType ev = true.
Proof.
  unfold fieldsKnown. intros H. apply andb_true_iff in H as [_ H]. exact H.
Qed.

(** C9.  In every execution: the worker loop runs only after the pod
    informer's cache-sync wait returned true; when that wait returns false
    [Run] returns with the timer not started, as for the other two
    informers; no handler is registered on the pod informer, and an update
    it delivers changes nothing; every event pending in the queue, being
    processed, or ever handed to [queue.Add] has resourceType timer, node or
    replicaSet. *)
Theorem pod_informer_synced_but_unhandled (clientErr timerErr : error)
    (ls : list (Label Node ReplicaSet Pod)) s0 s :
  CreateDescheduler Node clientErr timerErr = inl s0 ->
  exec' ls s0 = Some s ->
  (running s = true -> In (CWaitForCacheSync podInformer true) (calls s)) /\
  (pc s = WaitPodSync ->
   exists s', step' (LSync false) s = Some s' /\ pc s' = Returned /\
              running s' = false /\ timerOn s' = false) /\
  (forall h, ~ In (podInformer, h) (handlers s)) /\
  (forall old new s', step' (LUpdate podInformer old new) s = Some s' -> s' = s) /\
  (forall ev,
     In ev (workqueue.pending (queue s)) \/
     In ev (workqueue.processing (queue s)) \/ In (CAdd ev) (calls s) ->
     resourceType ev = "timer" \/ resourceType ev = "node" \/
     resourceType ev = "replicaSet").
Proof.
  intros Hc He.
  destruct (reachable_inv _ _ _ _ _ Hc He)
    as [Hinv (Hh & _ & _ & Hp & Hq & Ha)].
  split; [|split; [|split; [|split]]].
  - intros Hr. apply syncs_In. unfold startupInv in Hinv. unfold running in Hr.
    destruct (pc s); try discriminate; destruct Hinv as [-> _]; simpl; auto.
  - intros Hpc. unfold startupInv in Hinv. rewrite Hpc in Hinv.
    destruct Hinv as (_ & Ht & _).
    simpl. rewrite Hpc. eexists. split; [reflexivity|].
    unfold waitForCacheSync. rewrite returnFromRun_eq. simpl. auto.
  - intros h. rewrite Hh. simpl. intros [H|[H|[]]]; discriminate.
  - intros old new s' Hs.
    exact (step_update_registered podInformer old new s s' Hh Hs).
  - intros ev H. apply knownResourceType_spec, fieldsKnown_resourceType.
    rewrite forallb_forall in Hp, Hq, Ha.
    destruct H as [H|[H|H]]; auto. apply Ha. apply added_In. exact H.
Qed.

(** Draining a queue that was shut down: the pending items come out in
    order, and the next [Get] reports the shutdown. *)
Lemma drain_shut_down (q : workqueue.Queue) :
  workqueue.shuttingDown q = true ->
  fst (workqueue.drain (length (workqueue.pending q)) q) = workqueue.pending q /\
  workqueue.Get (snd (workqueue.drain (length (workqueue.pending q)) q)) =
  workqueue.GetShutdown.
Proof.
  destruct q as [p r t sd]. simpl. intros ->. revert r.
  induction p as [|ev p IH]; intros r; simpl; [split; reflexivity|].
  unfold workqueue.Done. simpl.
  specialize (IH (workqueue.removeb ev (ev :: r))).
  destruct (workqueue.drain (length p) _) as [items q''].
  simpl in *. destruct IH as [-> IH]. split; [reflexivity|exact IH].
Qed.

(** C10, as amended.  In every execution, once [Run] has returned (an abort
    of the startup included) the queue's [ShutDown] has been called and the
    queue is shutting down; a [Get] on it returns shutdown=true when nothing
    is pending, and otherwise after the pending events have been handed
    out, one per [Get]. *)
Theorem run_returned_queue_shut_down (clientErr timerErr : error)
    (ls : list (Label Node ReplicaSet Pod)) s0 s :
  CreateDescheduler Node clientErr timerErr = inl s0 ->
  exec' ls s0 = Some s ->
  pc s = Returned ->
  In CShutDown (calls s) /\
  workqueue.shuttingDown (queue s) = true /\
  (workqueue.pending (queue s) = [] ->
   workqueue.Get (queue s) = workqueue.GetShutdown) /\
  fst (workqueue.drain (length (workqueue.pending (queue s))) (queue s)) =
  workqueue.pending (queue s) /\
  workqueue.Get
    (snd (workqueue.drain (length (workqueue.pending (queue s))) (queue s))) =
  workqueue.GetShutdown.
Proof.
  intros Hc He Hpc.
  destruct (reachable_inv _ _ _ _ _ Hc He) as [Hinv _].
  unfold startupInv in Hinv. rewrite Hpc in Hinv.
  destruct Hinv as (_ & Hs & Hl).
  split; [exact Hl|]. split; [exact Hs|]. split.
  - intros Hp. apply Get_shutdown. split; assumption.
  - apply drain_shut_down. exact Hs.
Qed.

(** *** Callbacks statement by statement

    An invocation that runs its statements with nothing in between does
    what the callback does as a function of the captured variables. *)

Lemma exec_cons l (ls : list (Label Node ReplicaSet Pod)) s :
  exec' (l :: ls) s =
  match step' l s with Some s' => exec' ls s' | None => None end.
Proof. reflexivity. Qed.

Lemma set_frames_same s : set_frames (frames s) s = s.
Proof. destruct s; reflexivity. Qed.

Lemma effect_frames (i : Instr) (fs : list (list Instr)) s :
  effect i (set_frames fs s) = set_frames fs (effect i s).
Proof. destruct i; reflexivity. Qed.

Lemma continues_frames (i : Instr) (fs : list (list Instr)) s :
  continues i (set_frames fs s) = continues i s.
Proof. destruct i; reflexivity. Qed.

Lemma runCode_frames (code : list Instr) (fs : list (list Instr)) s :
  runCode code (set_frames fs s) = set_frames fs (runCode code s).
Proof.
  revert s. induction code as [|i rest IH]; intros s; [reflexivity|].
  cbn [runCode]. rewrite continues_frames, effect_frames.
  destruct (continues i s); [apply IH|reflexivity].
Qed.

Lemma ranStatements_frames (code : list Instr) (fs : list (list Instr)) s :
  ranStatements code (set_frames fs s) = ranStatements code s.
Proof.
  revert s. induction code as [|i rest IH]; intros s; [reflexivity|].
  cbn [ranStatements]. rewrite continues_frames, effect_frames.
  destruct (continues i s); [rewrite IH|]; reflexivity.
Qed.

Lemma setFrame_app (fs tl : list (list Instr)) (f rest : list Instr) :
  setFrame (length fs) rest (fs ++ f :: tl) =
  fs ++ match rest with [] => [] | _ => [rest] end ++ tl.
Proof.
  unfold setFrame.
  rewrite firstn_app, Nat.sub_diag, firstn_all, app_nil_r.
  replace (S (length fs)) with (length (fs ++ [f]))
    by (rewrite length_app; simpl; lia).
  replace (fs ++ f :: tl) with ((fs ++ [f]) ++ tl)
    by (rewrite <- app_assoc; reflexivity).
  rewrite skipn_app, skipn_all, Nat.sub_diag. reflexivity.
Qed.

(** The invocation in flight at [length fs] runs to its end: the state is
    that of the uninterrupted run, the other invocations are where they
    were. *)
Lemma uninterrupted_runs (code : list Instr) (fs tl : list (list Instr)) s :
  code <> [] ->
  frames s = fs ++ code :: tl ->
  exec' (uninterrupted code (length fs) s) s =
  Some (set_frames (fs ++ tl) (runCode code s)).
Proof.
  revert s. induction code as [|i rest IH]; intros s Hne Hf; [contradiction|].
  unfold uninterrupted. cbn [ranStatements repeat]. rewrite exec_cons.
  unfold step.
  rewrite Hf, nth_error_app2, Nat.sub_diag by lia. cbn [nth_error].
  rewrite <- Hf at 1. rewrite Hf, setFrame_app. cbn [runCode].
  destruct (continues i s) eqn:Hc.
  - destruct rest as [|i' rest'].
    + reflexivity.
    + set (s1 := set_frames (fs ++ [i' :: rest'] ++ tl) (effect i s)).
      assert (H1 : exec' (uninterrupted (i' :: rest') (length fs) s1) s1 =
                   Some (set_frames (fs ++ tl) (runCode (i' :: rest') s1)))
        by (apply IH; [discriminate|reflexivity]).
      unfold uninterrupted, s1 in H1.
      rewrite ranStatements_frames, runCode_frames in H1. exact H1.
  - reflexivity.
Qed.

(** An invocation that starts as the last one in flight and runs to its
    end. *)
Lemma invocation_runs (code : list Instr) s :
  exec' (uninterrupted code (length (frames s)) s)
        (set_frames (pushFrame code (frames s)) s) =
  Some (runCode code s).
Proof.
  destruct code as [|i rest].
  - cbn. rewrite set_frames_same. reflexivity.
  - set (s1 := set_frames (pushFrame (i :: rest) (frames s)) s).
    assert (H1 : exec' (uninterrupted (i :: rest) (length (frames s)) s1) s1 =
                 Some (set_frames (frames s ++ []) (runCode (i :: rest) s1)))
      by (apply uninterrupted_runs; [discriminate|reflexivity]).
    unfold uninterrupted, s1 in H1.
    rewrite ranStatements_frames, runCode_frames, app_nil_r in H1.
    unfold uninterrupted, s1. rewrite H1. f_equal.
    change (set_frames (frames s) (runCode (i :: rest) s) =
            runCode (i :: rest) s).
    rewrite <- runCode_frames, set_frames_same. reflexivity.
Qed.

Lemma runCode_timerCode s :
  runCode timerCode s = ranCallback (timerFunc (captured s)) s.
Proof. destruct s as [q [ev e] hs cs p lv t st ds fs]. reflexivity. Qed.

Lemma runCode_nodeCode (old new : Node) s :
  runCode (nodeCode IsReady MetaNamespaceKeyFunc old new) s =
  ranCallback (nodeUpdateFunc IsReady MetaNamespaceKeyFunc old new (captured s)) s.
Proof.
  destruct s as [q [ev e] hs cs p lv t st ds fs].
  unfold nodeCode, nodeUpdateFunc.
  destruct (negb (IsReady old) && IsReady new); [|reflexivity].
  destruct (MetaNamespaceKeyFunc (ONode old)) as [k [msg|]]; reflexivity.
Qed.

Lemma runCode_rsCode (old new : Object Node ReplicaSet Pod) s :
  runCode (rsCode MetaNamespaceKeyFunc old new) s =
  ranCallback (rsUpdateFunc MetaNamespaceKeyFunc old new (captured s)) s.
Proof.
  destruct s as [q [ev e] hs cs p lv t st ds fs].
  unfold rsCode, rsUpdateFunc.
  destruct (MetaNamespaceKeyFunc old) as [k [msg|]]; reflexivity.
Qed.

(** A step that runs a whole callback is an execution of the statement
    level: the invocation starts and runs its statements one by one, with
    nothing in between. *)
Lemma atomic_step_is_schedule l s s' :
  handlers s = registered ->
  step' l s = Some s' ->
  exec' (schedule IsReady MetaNamespaceKeyFunc l s) s = Some s'.
Proof.
  intros Hh Hstep.
  assert (Hone : exec' [l] s = Some s')
    by (rewrite exec_cons, Hstep; reflexivity).
  destruct l; try exact Hone; clear Hone.
  - (* LUpdate *)
    pose proof Hstep as Hs.
    apply step_update_registered in Hs; [|exact Hh].
    unfold schedule. rewrite exec_cons. unfold step in Hstep |- *.
    rewrite Hh in *.
    destruct (existsb (Informer_eqb i) (live s) &&
              Informer_eqb (informerOf old) i &&
              Informer_eqb (informerOf new) i); [|discriminate].
    destruct i.
    + destruct Hs as (o & n & -> & -> & ->).
      cbn [handlerCodes handlerCode registered Informer_eqb fold_left].
      rewrite invocation_runs, runCode_nodeCode. reflexivity.
    + subst s'. destruct old as [o|r|p], new as [n|r'|p'];
        cbn [handlerCodes handlerCode registered Informer_eqb fold_left];
        rewrite invocation_runs, runCode_rsCode; reflexivity.
    + subst s'. destruct old as [o|r|p], new as [n|r'|p'];
        cbn [handlerCodes handlerCode registered Informer_eqb fold_left exec];
        rewrite set_frames_same; reflexivity.
  - (* LTimer *)
    unfold schedule. rewrite exec_cons. unfold step in Hstep |- *.
    destruct (timerOn s); [|discriminate]. injection Hstep as <-.
    rewrite invocation_runs, runCode_timerCode. reflexivity.
Qed.

Lemma schedule_fine l s :
  existsb isAtomic (schedule IsReady MetaNamespaceKeyFunc l s) = false.
Proof.
  assert (Hr : forall n k,
             existsb (@isAtomic Node ReplicaSet Pod) (repeat (LInstr n) k) = false)
    by (intros n k; induction k; [reflexivity|exact IHk]).
  destruct l; try reflexivity.
  unfold schedule. cbn [existsb isAtomic orb].
  destruct (handlerCodes _ _ _ _ _ _) as [[|code [|c cs]]|]; try reflexivity.
  apply Hr.
Qed.

(** Every execution is an execution of the statement level: the steps that
    run a whole callback can be replaced by their schedules. *)
Lemma exec_expand (ls : list (Label Node ReplicaSet Pod)) s s' :
  eventsInv s ->
  exec' ls s = Some s' ->
  exec' (expand IsReady MetaNamespaceKeyFunc ls s) s = Some s' /\
  existsb isAtomic (expand IsReady MetaNamespaceKeyFunc ls s) = false.
Proof.
  revert s. induction ls as [|l ls IH]; intros s Hinv He.
  - split; [exact He|reflexivity].
  - rewrite exec_cons in He. cbn [expand].
    destruct (step' l s) as [s1|] eqn:Hstep; [|discriminate].
    destruct (IH s1 (eventsInv_step _ _ _ Hinv Hstep) He) as [H1 H2].
    split.
    + rewrite exec_app, (atomic_step_is_schedule l s s1); [exact H1| |exact Hstep].
      apply Hinv.
    + rewrite existsb_app, H2, schedule_fine. reflexivity.
Qed.

(** *** Without a node that becomes ready there is no getReady event *)

(** The steps of [Run] and of the worker leave the callbacks' variables, the
    invocations in flight and the events added as they are. *)
Lemma coarse_shape l s s' :
  ~ isFine l -> isAtomic l = false ->
  step' l s = Some s' ->
  handlers s' = handlers s /\ captured s' = captured s /\
  frames s' = frames s /\ added (calls s') = added (calls s).
Proof.
  intros Hnf Hna Hstep.
  set (Q := fun x : State Node =>
              handlers x = handlers s /\ captured x = captured s /\
              frames x = frames s /\ added (calls x) = added (calls s)).
  change (Q s').
  assert (Hret : forall s1 : State Node, Q s1 -> Q (returnFromRun s1)).
  { intros s1 (H1 & H2 & H3 & H4). unfold Q. rewrite returnFromRun_eq. simpl.
    rewrite added_app, added_deferred, app_nil_r. repeat split; assumption. }
  destruct l; try discriminate; try (exfalso; apply Hnf; exact I);
    simpl in Hstep.
  - (* LRun *)
    destruct (pc s); try discriminate. injection Hstep as <-.
    unfold Q. log_simpl. repeat split.
  - (* LSync *)
    destruct (pc s); try discriminate; injection Hstep as <-;
      unfold waitForCacheSync, untilLoop; destruct synced;
      cbn [stopCh emit set_timerOn]; try destruct (stopCh s);
      try apply Hret; unfold Q; log_simpl; repeat split.
  - (* LWork *)
    destruct (pc s) eqn:Hpc; try discriminate.
    destruct (processNextItem o s) as [[b s1]|] eqn:Hp; [|discriminate].
    apply processNextItem_shape in Hp as [(-> & Hg & ->)|(-> & ev & q' & Hg & ->)];
      injection Hstep as <-.
    + cbn [stopCh emit]. destruct (stopCh s); try apply Hret;
        unfold Q; log_simpl; repeat split.
    + unfold Q. simpl. rewrite added_app. simpl.
      rewrite added_app, added_between. simpl. rewrite app_nil_r.
      repeat split.
  - (* LWake *)
    destruct (pc s); try discriminate. injection Hstep as <-.
    unfold untilLoop. destruct (stopCh s); try apply Hret;
      unfold Q; repeat split.
  - (* LStop *)
    injection Hstep as <-. unfold Q. repeat split.
Qed.

Lemma noGetReady_update (evs : list Event) (c : Captured)
    (fs : list (list Instr)) s :
  noGetReady s ->
  isGetReady (newEvent c) = false ->
  forallb (fun f => negb (existsb writesGetReady f)) fs = true ->
  forallb (fun e => negb (isGetReady e)) evs = true ->
  noGetReady (mkState (fold_left (fun q item => workqueue.Add item q) evs (queue s))
                      c (handlers s) (calls s ++ map CAdd evs) (pc s) (live s)
                      (timerOn s) (stopCh s) (defers s) fs).
Proof.
  intros (Hh & _ & _ & Ha) Hc Hf Hk. unfold noGetReady. simpl.
  rewrite added_app, added_map_CAdd, forallb_app, Ha, Hk. repeat split; auto.
Qed.

Lemma noGetReady_ran (r : Captured * list Event) s :
  noGetReady s ->
  isGetReady (newEvent (fst r)) = false ->
  forallb (fun e => negb (isGetReady e)) (snd r) = true ->
  noGetReady (ranCallback r s).
Proof.
  intros Hinv Hc Hk. rewrite ranCallback_eq.
  apply noGetReady_update; try assumption. apply Hinv.
Qed.

(** A step that is not the delivery of a node that becomes ready leaves no
    trace of the node callback. *)
Lemma noGetReady_step l s s' :
  isTransition IsReady l = false ->
  noGetReady s -> step' l s = Some s' -> noGetReady s'.
Proof.
  intros Ht Hinv Hstep. pose proof Hinv as (Hh & Hc & Hf & Ha).
  assert (Hcoarse : ~ isFine l -> isAtomic l = false -> noGetReady s').
  { intros H1 H2.
    destruct (coarse_shape _ _ _ H1 H2 Hstep) as (E1 & E2 & E3 & E4).
    unfold noGetReady. rewrite E1, E2, E3, E4. exact Hinv. }
  destruct l; try (apply Hcoarse; [intros H; exact H|reflexivity]);
    clear Hcoarse.
  - (* LUpdate *)
    apply step_update_registered in Hstep; [|exact Hh].
    destruct i.
    + destruct Hstep as (o & n & -> & -> & ->). simpl in Ht.
      unfold nodeUpdateFunc. rewrite Ht.
      apply noGetReady_ran; [exact Hinv|exact Hc|reflexivity].
    + subst s'. unfold rsUpdateFunc.
      destruct (MetaNamespaceKeyFunc old) as [k [msg|]];
        apply noGetReady_ran; try exact Hinv; reflexivity.
    + subst s'. exact Hinv.
  - (* LTimer *)
    simpl in Hstep. destruct (timerOn s); [|discriminate].
    injection Hstep as <-. apply noGetReady_ran; try exact Hinv; reflexivity.
  - (* LDeliver *)
    unfold step in Hstep. rewrite Hh in Hstep.
    destruct (existsb (Informer_eqb i) (live s)); [|discriminate].
    destruct i, old as [o|r|p]; try discriminate;
      destruct new as [n|r'|p']; try discriminate;
      cbn [handlerCodes handlerCode registered Informer_eqb informerOf andb
           fold_left] in Hstep;
      injection Hstep as <-; unfold noGetReady;
      cbn [handlers captured queue calls frames set_frames];
      repeat split; auto.
    + simpl in Ht. unfold nodeCode. rewrite Ht. exact Hf.
    + rewrite forallb_app, Hf. reflexivity.
  - (* LFire *)
    unfold step in Hstep. destruct (timerOn s); [|discriminate].
    injection Hstep as <-. unfold noGetReady.
    cbn [handlers captured queue calls frames set_frames].
    repeat split; auto. rewrite forallb_app, Hf. reflexivity.
  - (* LInstr *)
    unfold step in Hstep.
    destruct (nth_error (frames s) n) as [[|i rest]|] eqn:Hn; try discriminate.
    injection Hstep as <-.
    assert (Hfr : negb (existsb writesGetReady (i :: rest)) = true).
    { rewrite forallb_forall in Hf. apply Hf. eapply nth_error_In. exact Hn. }
    cbn [existsb] in Hfr. apply negb_true_iff, orb_false_iff in Hfr as [Hi Hr].
    assert (Hrest : forall b : bool,
               forallb (fun f => negb (existsb writesGetReady f))
                       (setFrame n (if b then rest else []) (frames s)) = true).
    { intros b. apply forallb_setFrame; [exact Hf|].
      destruct b; [rewrite Hr|]; reflexivity. }
    unfold noGetReady.
    destruct i; cbn [effect handlers captured queue calls frames set_frames
                      set_captured queueAdd emit set_queue newEvent];
      repeat split; auto.
    rewrite added_app, forallb_app, Ha. unfold isGetReady in Hc.
    simpl. unfold isGetReady. rewrite Hc. reflexivity.
Qed.

Lemma noGetReady_exec (ls : list (Label Node ReplicaSet Pod)) s s' :
  existsb (isTransition IsReady) ls = false ->
  noGetReady s -> exec' ls s = Some s' -> noGetReady s'.
Proof.
  revert s. induction ls as [|l ls IH]; intros s Ht Hinv He.
  - injection He as <-. exact Hinv.
  - rewrite exec_cons in He. cbn [existsb] in Ht.
    apply orb_false_iff in Ht as [Hl Hls].
    destruct (step' l s) as [s1|] eqn:Hstep; [|discriminate].
    exact (IH s1 Hls (noGetReady_step _ _ _ Hl Hinv Hstep) He).
Qed.

Lemma Event_eqb_eq (a b : Event) : Event_eqb a b = true -> a = b.
Proof.
  destruct a, b. unfold Event_eqb. simpl. intros H.
  apply andb_true_iff in H as [H H4]. apply andb_true_iff in H as [H H3].
  apply andb_true_iff in H as [H1 H2].
  apply String.eqb_eq in H1, H2, H3, H4. subst. reflexivity.
Qed.

(** An event handed to [Add] is pending afterwards, unless the queue was
    shut down. *)
Lemma Add_In ev (q : workqueue.Queue) :
  workqueue.shuttingDown q = false ->
  In ev (workqueue.pending (workqueue.Add ev q)).
Proof.
  intros Hs. unfold workqueue.Add. rewrite Hs.
  destruct (existsb (Event_eqb ev) (workqueue.pending q)) eqn:Hx.
  - apply existsb_exists in Hx as (x & Hx & He).
    apply Event_eqb_eq in He. subst x. exact Hx.
  - simpl. apply in_or_app. right. left. reflexivity.
Qed.

(** X15.  In every execution, whatever the interleaving of the callbacks:
    as long as no node update from a node that is not ready to a node that
    is ready was delivered, no event with eventType getReady was handed to
    [queue.Add]; and an update that is not such a transition (a
    true-to-true repeat, a true-to-false transition) starts no statement
    and leaves the state as it is.  When the node callback is invoked in
    any state an execution reaches and runs its statements with no
    statement of another callback in between, it hands an event with
    eventType getReady and resourceType node to [queue.Add] if and only if
    the old node is not ready, the new node is ready and the key of the old
    node could be derived; it hands the queue at most one event, that event
    carries the derived key, and it is pending afterwards unless the queue
    was shut down. *)
Theorem getReady_iff_transition_when_uninterrupted (clientErr timerErr : error)
    (ls : list (Label Node ReplicaSet Pod)) s0 s (old new : Node) :
  CreateDescheduler Node clientErr timerErr = inl s0 ->
  exec' ls s0 = Some s ->
  existsb (Informer_eqb nodeInformer) (live s) = true ->
  (existsb (isTransition IsReady) ls = false ->
   forall ev, In ev (added (calls s)) -> eventType ev <> "getReady") /\
  (negb (IsReady old) && IsReady new = false ->
   step' (LDeliver nodeInformer (ONode old) (ONode new)) s = Some s) /\
  exists s' evs,
    exec' (LDeliver nodeInformer (ONode old) (ONode new) ::
           uninterrupted (nodeCode IsReady MetaNamespaceKeyFunc old new)
                         (length (frames s)) s) s = Some s' /\
    added (calls s') = added (calls s) ++ evs /\
    length evs <= 1 /\
    ((exists e, In e evs /\ eventType e = "getReady" /\ resourceType e = "node")
     <-> (IsReady old = false /\ IsReady new = true /\
          snd (MetaNamespaceKeyFunc (ONode old)) = None)) /\
    (forall e, In e evs ->
       e = mkEvent (fst (MetaNamespaceKeyFunc (ONode old))) "getReady" "" "node" /\
       (workqueue.shuttingDown (queue s) = false ->
        In e (workqueue.pending (queue s')))).
Proof.
  intros Hc He Hlive.
  destruct (reachable_inv _ _ _ _ _ Hc He) as [_ (Hh & Hns & _)].
  split; [|split].
  - intros Ht ev Hev.
    assert (H0 : noGetReady s0).
    { unfold CreateDescheduler in Hc.
      destruct clientErr; [discriminate|]. destruct timerErr; [discriminate|].
      injection Hc as <-. repeat split. }
    destruct (noGetReady_exec ls s0 s Ht H0 He) as (_ & _ & _ & Ha).
    rewrite forallb_forall in Ha. apply Ha in Hev.
    apply negb_true_iff in Hev. unfold isGetReady in Hev.
    intros E. rewrite E in Hev. discriminate.
  - intros Hn. unfold step. rewrite Hh, Hlive.
    cbn [handlerCodes handlerCode registered Informer_eqb informerOf andb
         fold_left].
    unfold nodeCode. rewrite Hn. cbn [pushFrame].
    rewrite set_frames_same. reflexivity.
  - exists (ranCallback (nodeUpdateFunc IsReady MetaNamespaceKeyFunc old new
                                        (captured s)) s),
           (snd (nodeUpdateFunc IsReady MetaNamespaceKeyFunc old new (captured s))).
    split; [|split; [|split; [|split]]].
    + rewrite exec_cons. unfold step. rewrite Hh, Hlive.
      cbn [handlerCodes handlerCode registered Informer_eqb informerOf andb
           fold_left].
      rewrite invocation_runs, runCode_nodeCode. reflexivity.
    + rewrite ranCallback_eq. simpl. rewrite added_app, added_map_CAdd.
      reflexivity.
    + apply nodeUpdateFunc_getReady_iff.
    + apply nodeUpdateFunc_getReady_iff.
    + intros e Hin. split.
      * destruct (nodeUpdateFunc_getReady_iff IsReady MetaNamespaceKeyFunc
                    old new (captured s)) as (_ & Heq & _).
        apply Heq in Hin. rewrite Hns in Hin. exact Hin.
      * intros Hs. rewrite ranCallback_eq. simpl.
        rewrite nodeUpdateFunc_adds in Hin |- *.
        destruct (negb (IsReady old) && IsReady new); [|contradiction].
        destruct (snd (MetaNamespaceKeyFunc (ONode old))); [contradiction|].
        destruct Hin as [<-|[]]. simpl. apply Add_In. exact Hs.
Qed.

End System.

(** * The model on the sample cluster *)

(** C1.  A node that goes from not ready to ready, and no getReady event
    for it: n1 becomes ready and the key of the old node is derived; the
    replica set informer delivers an update of web while the node handler
    is between its last write to [newEvent] and its test of [err]; the node
    handler then hands the queue the event the replica set handler left in
    [newEvent].  No event with eventType getReady and resourceType node is
    handed to the queue.  Run with nothing in between, the same node update
    hands the queue the getReady event of n1. *)
Theorem getReady_lost_to_concurrent_update :
  Sample.nodeReady Sample.n1_down = false /\
  Sample.nodeReady Sample.n1_up = true /\
  Sample.keyFunc (ONode Sample.n1_down) = ("n1", None) /\
  exec Sample.nodeReady Sample.keyFunc Cluster.racedReady Sample.created =
  Some Cluster.readyLost /\
  frames Cluster.readyLost = [] /\
  added (calls Cluster.readyLost) = [Cluster.rs_event; Cluster.rs_event] /\
  workqueue.pending (queue Cluster.readyLost) = [Cluster.rs_event] /\
  ~ (exists e, In e (added (calls Cluster.readyLost)) /\
               eventType e = "getReady" /\ resourceType e = "node") /\
  exec Sample.nodeReady Sample.keyFunc
       (Cluster.n1_delivered ::
        uninterrupted (nodeCode Sample.nodeReady Sample.keyFunc
                                Sample.n1_down Sample.n1_up)
                      (length (frames Sample.synced)) Sample.synced)
       Sample.synced = Some Cluster.n1Ready /\
  added (calls Cluster.n1Ready) = [Sample.n1_event].
Proof.
  repeat (split; [vm_compute; reflexivity|]).
  split; [|split; vm_compute; reflexivity].
  intros (e & [<-|[<-|[]]] & H & _); discriminate.
Qed.

(** C2 as stated fails: the provider fails on an event that was never
    retried, and the worker neither calls AddRateLimited nor counts a retry;
    the event is gone from the queue. *)
Lemma failed_event_not_requeued :
  exists s',
    processNextItem Sample.providerFails (Sample.holding Sample.n1_event) =
    Some (true, s') /\
    workqueue.NumRequeues Sample.n1_event
      (queue (Sample.holding Sample.n1_event)) < maxRetries /\
    ~ In (CAddRateLimited Sample.n1_event) (calls s') /\
    workqueue.NumRequeues Sample.n1_event (queue s') = 0 /\
    workqueue.pending (queue s') = [].
Proof.
  eexists. split; [vm_compute; reflexivity|]. simpl. repeat split.
  - unfold maxRetries, workqueue.NumRequeues. simpl. lia.
  - intros H. repeat (destruct H as [H|H]; [discriminate|]). exact H.
Qed.

Lemma provider_failure_drops_event_witness :
  workqueue.Get (queue (Sample.holding Sample.n1_event)) =
  workqueue.GetItem Sample.n1_event
    (workqueue.mkQueue [] [Sample.n1_event] [] false) /\
  exists s',
    processNextItem Sample.providerFails (Sample.holding Sample.n1_event) =
    Some (true, s') /\
    calls s' = calls (Sample.holding Sample.n1_event) ++
               [CGet (Some Sample.n1_event); CIsTriggered true;
                CGetReadyNodes (Some "list failed");
                CPrintln "Failed to get ready nodes:"; CDone Sample.n1_event] /\
    queue s' = workqueue.Done Sample.n1_event
                 (workqueue.mkQueue [] [Sample.n1_event] [] false) /\
    workqueue.pending (queue s') =
    tl (workqueue.pending (queue (Sample.holding Sample.n1_event))) /\
    workqueue.NumRequeues Sample.n1_event (queue s') =
    workqueue.NumRequeues Sample.n1_event (queue (Sample.holding Sample.n1_event)).
Proof.
  split; [reflexivity|].
  apply (provider_failure_drops_event Sample.providerFails
           (Sample.holding Sample.n1_event) Sample.n1_event
           (workqueue.mkQueue [] [Sample.n1_event] [] false) "list failed").
  - reflexivity.
  - left. reflexivity.
  - reflexivity.
  - reflexivity.
Defined.

(** C3.  The callbacks do not build independent events: they write into the
    one captured [newEvent], which after the node callback has run for n1
    holds n1's getReady event.  From the initial variables the timer
    callback hands the queue an event with an empty key; after that node
    callback it hands the queue an event with key n1. *)
Theorem timer_event_depends_on_history :
  let c := fst (nodeUpdateFunc Sample.nodeReady Sample.keyFunc
                               Sample.n1_down Sample.n1_up initialCaptured) in
  newEvent c = Sample.n1_event /\
  snd (timerFunc initialCaptured) = [mkEvent "" "onTime" "" "timer"] /\
  snd (timerFunc c) = [mkEvent "n1" "onTime" "" "timer"].
Proof. repeat split. Qed.

(** C4.  An execution in which the timer's event does not have an empty
    key: all caches sync, n1 becomes ready, the worker handles that event,
    the timer fires.  The timer's event is queued with the key n1. *)
Theorem timer_event_carries_stale_key :
  exec Sample.nodeReady Sample.keyFunc Sample.timerAfterNode Sample.created =
  Some Sample.timerFired /\
  added (calls Sample.timerFired) =
  [Sample.n1_event; mkEvent "n1" "onTime" "" "timer"] /\
  workqueue.pending (queue Sample.timerFired) =
  [mkEvent "n1" "onTime" "" "timer"].
Proof. repeat split; vm_compute; reflexivity. Qed.

Lemma trigger_iff_node_or_timer_witness :
  workqueue.Get (queue (Sample.holding Sample.n1_event)) =
  workqueue.GetItem Sample.n1_event
    (workqueue.mkQueue [] [Sample.n1_event] [] false) /\
  exists s' mid,
    processNextItem Sample.providerWorks (Sample.holding Sample.n1_event) =
    Some (true, s') /\
    calls s' = calls (Sample.holding Sample.n1_event) ++
               CGet (Some Sample.n1_event) :: mid ++ [CDone Sample.n1_event] /\
    (existsb isIsTriggered mid = true <->
     (resourceType Sample.n1_event = "node" \/
      resourceType Sample.n1_event = "timer")) /\
    (resourceType Sample.n1_event <> "node" ->
     resourceType Sample.n1_event <> "timer" ->
     mid = [] /\
     queue s' = workqueue.Done Sample.n1_event
                  (workqueue.mkQueue [] [Sample.n1_event] [] false)).
Proof.
  split; [reflexivity|].
  apply (trigger_iff_node_or_timer Sample.providerWorks
           (Sample.holding Sample.n1_event) Sample.n1_event
           (workqueue.mkQueue [] [Sample.n1_event] [] false)).
  reflexivity.
Defined.

Lemma done_once_then_continue_witness :
  workqueue.Get (queue (Sample.holding Sample.n1_event)) =
  workqueue.GetItem Sample.n1_event
    (workqueue.mkQueue [] [Sample.n1_event] [] false) /\
  exists s' mid,
    processNextItem Sample.providerFails (Sample.holding Sample.n1_event) =
    Some (true, s') /\
    calls s' = calls (Sample.holding Sample.n1_event) ++
               CGet (Some Sample.n1_event) :: mid ++ [CDone Sample.n1_event] /\
    existsb isGet mid = false /\ existsb isDone mid = false /\
    runWorker [Sample.providerFails; Sample.providerFails]
              (Sample.holding Sample.n1_event) =
    runWorker [Sample.providerFails] s'.
Proof.
  split; [reflexivity|].
  apply (done_once_then_continue Sample.providerFails [Sample.providerFails]
           (Sample.holding Sample.n1_event) Sample.n1_event
           (workqueue.mkQueue [] [Sample.n1_event] [] false)).
  reflexivity.
Defined.

Lemma running_only_after_all_synced_witness :
  CreateDescheduler Sample.node None None = inl Sample.created /\
  exec Sample.nodeReady Sample.keyFunc Sample.startup Sample.created =
  Some Sample.synced /\
  running Sample.synced = true /\
  In (CWaitForCacheSync nodeInformer true) (calls Sample.synced) /\
  In (CWaitForCacheSync rsInformer true) (calls Sample.synced) /\
  In (CWaitForCacheSync podInformer true) (calls Sample.synced).
Proof.
  split; [reflexivity|]. split; [reflexivity|]. split; [reflexivity|].
  pose proof (running_only_after_all_synced Sample.nodeReady Sample.keyFunc
                None None Sample.startup [] Sample.created Sample.synced
                Sample.synced eq_refl eq_refl eq_refl) as [H _].
  repeat split; apply H; left; reflexivity.
Defined.

(** C8.  A replica set update whose key derivation fails, and whose
    notification is enqueued all the same: the handler stores the error in
    the captured [err] and goes on to write the eventType and the
    resourceType; meanwhile the node handler runs for n1 and stores nil in
    the same [err]; the replica set handler then finds [err == nil] and is
    left with its [queue.Add], which hands the queue an rsUpdate event with
    the key of n1.  Run with nothing in between, the same handler adds
    nothing. *)
Theorem key_failure_still_enqueues :
  Sample.keyFunc (OReplicaSet Sample.bad_rs) = ("", Some "object has no meta") /\
  exec Sample.nodeReady Sample.keyFunc Cluster.racedKeyFailure Sample.created =
  Some Cluster.keyFailurePassed /\
  frames Cluster.keyFailurePassed = [[IAdd]] /\
  err (captured Cluster.keyFailurePassed) = None /\
  added (calls Cluster.keyFailurePassed) = [Sample.n1_event] /\
  step Sample.nodeReady Sample.keyFunc (LInstr 0) Cluster.keyFailurePassed =
  Some Cluster.keyFailureAdded /\
  frames Cluster.keyFailureAdded = [] /\
  added (calls Cluster.keyFailureAdded) =
  [Sample.n1_event; mkEvent "n1" "rsUpdate" "" "replicaSet"] /\
  workqueue.pending (queue Cluster.keyFailureAdded) =
  [Sample.n1_event; mkEvent "n1" "rsUpdate" "" "replicaSet"] /\
  exec Sample.nodeReady Sample.keyFunc
       (Cluster.bad_rs_delivered ::
        uninterrupted (rsCode Sample.keyFunc (OReplicaSet Sample.bad_rs)
                              (OReplicaSet Sample.bad_rs))
                      (length (frames Sample.synced)) Sample.synced)
       Sample.synced = Some Cluster.keyFailureAlone /\
  frames Cluster.keyFailureAlone = [] /\
  added (calls Cluster.keyFailureAlone) = [].
Proof. repeat split; vm_compute; reflexivity. Qed.

Lemma pod_informer_synced_but_unhandled_witness :
  exec Sample.nodeReady Sample.keyFunc Sample.startup Sample.created =
  Some Sample.synced /\
  In (CWaitForCacheSync podInformer true) (calls Sample.synced) /\
  step Sample.nodeReady Sample.keyFunc Sample.pod_update Sample.synced =
  Some Sample.synced.
Proof.
  split; [reflexivity|].
  pose proof (pod_informer_synced_but_unhandled Sample.nodeReady Sample.keyFunc
                None None Sample.startup Sample.created Sample.synced
                eq_refl eq_refl) as (H & _).
  split; [apply H; reflexivity|reflexivity].
Defined.

(** C10 as stated fails: n1 becomes ready during the startup, then the
    replica set cache times out.  [Run] has returned and [ShutDown] was
    called, and the next [Get] hands out the event of n1 with
    shutdown=false. *)
Lemma get_after_abort_returns_item :
  exec Sample.nodeReady Sample.keyFunc Sample.abortLabels Sample.created =
  Some Sample.aborted /\
  pc Sample.aborted = Returned /\
  In CShutDown (calls Sample.aborted) /\
  workqueue.Get (queue Sample.aborted) =
  workqueue.GetItem Sample.n1_event
    (workqueue.mkQueue [] [Sample.n1_event] [] true) /\
  workqueue.Get (queue Sample.aborted) <> workqueue.GetShutdown.
Proof.
  split; [vm_compute; reflexivity|]. split; [reflexivity|].
  split; [|split; [vm_compute; reflexivity|vm_compute; discriminate]].
  vm_compute. do 10 right. left. reflexivity.
Qed.

Lemma run_returned_queue_shut_down_witness :
  exec Sample.nodeReady Sample.keyFunc Sample.abortLabels Sample.created =
  Some Sample.aborted /\
  pc Sample.aborted = Returned /\
  workqueue.shuttingDown (queue Sample.aborted) = true /\
  workqueue.Get (snd (workqueue.drain 1 (queue Sample.aborted))) =
  workqueue.GetShutdown.
Proof.
  split; [reflexivity|]. split; [reflexivity|].
  pose proof (run_returned_queue_shut_down Sample.nodeReady Sample.keyFunc
                None None Sample.abortLabels Sample.created Sample.aborted
                eq_refl eq_refl eq_refl) as (_ & H1 & _ & _ & H2).
  split; [exact H1|exact H2].
Defined.

(** * Further properties of [Run], the callbacks and the worker *)

Section RunInvariant.

Context {Node ReplicaSet Pod : Type}.
Variable IsReady : Node -> bool.
Variable MetaNamespaceKeyFunc : Object Node ReplicaSet Pod -> string * error.
Implicit Types (s : State Node) (l : Label Node ReplicaSet Pod) (ev : Event).

Local Abbreviation step' := (step IsReady MetaNamespaceKeyFunc).
Local Abbreviation exec' := (exec IsReady MetaNamespaceKeyFunc).

Lemma starts_app (cs1 cs2 : list (Call Node)) :
  starts (cs1 ++ cs2) = starts cs1 ++ starts cs2.
Proof.
  induction cs1 as [|c cs1 IH]; [reflexivity|].
  destruct c; simpl; rewrite IH; reflexivity.
Qed.

Lemma acked_app (cs1 cs2 : list (Call Node)) :
  acked (cs1 ++ cs2) = acked cs1 ++ acked cs2.
Proof.
  induction cs1 as [|c cs1 IH]; [reflexivity|].
  destruct c; simpl; rewrite IH; reflexivity.
Qed.

Lemma starts_In (cs : list (Call Node)) (i : Informer) :
  In (CInformerRun i) cs <-> In i (starts cs).
Proof.
  induction cs as [|c cs IH]; [reflexivity|].
  destruct c; simpl; rewrite <- IH; split;
    try (intros [H|H]; [discriminate|exact H]); try (intros H; right; exact H).
  - intros [H|H]; [left; congruence|right; exact H].
  - intros [H|H]; [left; congruence|right; exact H].
Qed.

Lemma starts_map_CAdd (evs : list Event) : starts (map (@CAdd Node) evs) = [].
Proof. induction evs; [reflexivity|assumption]. Qed.

Lemma isGet_map_CAdd (evs : list Event) :
  existsb isGet (map (@CAdd Node) evs) = false.
Proof. induction evs; [reflexivity|assumption]. Qed.

Lemma starts_between (o : Oracle Node) ev : starts (between o ev) = [].
Proof.
  unfold between.
  destruct (_ || _); [destruct (isTriggered o);
                      [destruct (snd (getReadyNodes o))|]|]; reflexivity.
Qed.

(** A queue that was shut down takes no item. *)
Lemma Add_after_ShutDown (evs : list Event) (q : workqueue.Queue) :
  workqueue.shuttingDown q = true ->
  fold_left (fun q item => workqueue.Add item q) evs q = q.
Proof.
  intros Hq. induction evs as [|e evs IH]; simpl; [reflexivity|].
  unfold workqueue.Add at 2. rewrite Hq. exact IH.
Qed.

Ltac run_simpl :=
  simpl;
  repeat rewrite ?syncs_app, ?starts_app, ?existsb_app, ?syncs_map_CAdd,
    ?starts_map_CAdd, ?isGet_map_CAdd, ?syncs_between, ?starts_between,
    ?app_nil_r, ?orb_false_r; simpl.

Lemma runInv_step l s s' :
  startupInv s -> runInv s -> step' l s = Some s' -> runInv s'.
Proof.
  intros Hsu (Hb & Hl & Hd & Hq & Hg & Hst & Hs) Hstep.
  assert (Hfine : isFine l -> runInv s').
  { intros Hf.
    apply (fine_shape IsReady MetaNamespaceKeyFunc) in Hstep
      as (evs & c & fs & _ & ->); [|exact Hf].
    unfold runInv. run_simpl. rewrite Add_shuttingDown.
    repeat split; assumption. }
  unfold startupInv in Hsu.
  destruct l; try (apply Hfine; exact I); clear Hfine; simpl in Hstep.
  - (* LRun *)
    destruct (pc s) eqn:Hpc; try discriminate. injection Hstep as <-.
    simpl in *. destruct Hsu as [Hsy _].
    specialize (Hg ltac:(discriminate)).
    unfold runInv. run_simpl. rewrite Hl, Hd, Hq, Hg, Hs, Hsy.
    repeat split; try discriminate; reflexivity.
  - (* LSync *)
    destruct (pc s) eqn:Hpc; try discriminate; injection Hstep as <-;
      simpl in *; specialize (Hg ltac:(discriminate));
      destruct Hsu as (Hsy & _);
      unfold waitForCacheSync, untilLoop; destruct synced; simpl;
      try (destruct (stopCh s) eqn:Hstop);
      rewrite ?returnFromRun_eq; unfold runInv; run_simpl;
      rewrite ?Hl, ?Hd, ?Hq, ?Hg, ?Hs, ?Hsy; simpl;
      repeat split; try discriminate; try reflexivity; try assumption;
      try (intros _ H; discriminate); try (intros _ _; assumption).
  - (* LUpdate *)
    destruct (_ && _); [|discriminate].
    apply (deliver_shape IsReady MetaNamespaceKeyFunc) in Hstep
      as (evs & c & _ & ->).
    unfold runInv. run_simpl. rewrite Add_shuttingDown.
    repeat split; assumption.
  - (* LTimer *)
    destruct (timerOn s); [|discriminate]. injection Hstep as <-.
    generalize (timerFunc (captured s)). intros r. rewrite ranCallback_eq.
    unfold runInv. run_simpl. rewrite Add_shuttingDown.
    repeat split; assumption.
  - (* LWork *)
    destruct (pc s) eqn:Hpc; try discriminate.
    destruct (processNextItem o s) as [[b s1]|] eqn:Hp; [|discriminate].
    apply processNextItem_shape in Hp as [(-> & Hget & ->)|(-> & ev & q' & Hget & ->)].
    + apply Get_shutdown in Hget as [_ Hget]. rewrite Hget in Hq. discriminate.
    + injection Hstep as <-. apply Get_item in Hget as (_ & _ & _ & Hsd).
      unfold runInv. simpl. rewrite Hpc, Hsd, Hq.
      rewrite syncs_app, starts_app. simpl.
      rewrite syncs_app, starts_app, syncs_between, starts_between. simpl.
      rewrite !app_nil_r.
      simpl in Hs. rewrite app_nil_r in Hs.
      repeat split; try discriminate; try assumption.
      intros H. contradiction.
  - (* LWake *)
    destruct (pc s) eqn:Hpc; try discriminate. contradiction.
  - (* LStop *)
    injection Hstep as <-. unfold runInv. simpl.
    repeat split; assumption.
Qed.

(** The three invariants hold in every state an execution reaches from
    what [CreateDescheduler] returns. *)
Lemma reachable_runInv (clientErr timerErr : error)
    (ls : list (Label Node ReplicaSet Pod)) s0 s :
  CreateDescheduler Node clientErr timerErr = inl s0 ->
  exec' ls s0 = Some s ->
  startupInv s /\ eventsInv s /\ runInv s.
Proof.
  intros Hc He.
  assert (H0 : startupInv s0 /\ runInv s0).
  { unfold CreateDescheduler in Hc.
    destruct clientErr; [discriminate|]. destruct timerErr; [discriminate|].
    injection Hc as <-. split; [split; reflexivity|].
    unfold runInv. simpl. repeat split; try discriminate. }
  destruct (reachable_inv IsReady MetaNamespaceKeyFunc _ _ _ _ _ Hc He)
    as [H1 H2].
  split; [exact H1|split; [exact H2|]].
  refine (proj2 (exec_invariant IsReady MetaNamespaceKeyFunc
                   (fun x => startupInv x /\ runInv x) _ ls s0 s H0 He)).
  intros l s1 s2 [Ha Hb] Hs. split.
  - eapply startupInv_step; eassumption.
  - eapply runInv_step; eassumption.
Qed.

(** X3.  Once the worker loop runs, [Run] never leaves it: whatever
    happens afterwards (the stop channel closed, the timer firing, updates,
    iterations of the worker), [Run] is still inside [runWorker] and the
    queue is not shut down.  The deferred [ShutDown] is the only one in the
    source, and the loop ends only on a [Get] that reports it. *)
Theorem worker_loop_never_left (clientErr timerErr : error)
    (ls ls' : list (Label Node ReplicaSet Pod)) s0 s s' :
  CreateDescheduler Node clientErr timerErr = inl s0 ->
  exec' ls s0 = Some s ->
  pc s = InWorker ->
  exec' ls' s = Some s' ->
  pc s' = InWorker /\ workqueue.shuttingDown (queue s') = false.
Proof.
  intros Hc He Hpc He'.
  destruct (reachable_runInv _ _ _ _ _ Hc He) as (_ & _ & Hr).
  destruct Hr as (_ & _ & _ & Hq & _). rewrite Hpc in Hq.
  refine (exec_invariant IsReady MetaNamespaceKeyFunc
            (fun x => pc x = InWorker /\
                      workqueue.shuttingDown (queue x) = false)
            _ ls' s s' (conj Hpc Hq) He').
  clear. intros l s s' [Hpc Hq] Hstep.
  assert (Hfine : isFine l ->
                  pc s' = InWorker /\
                  workqueue.shuttingDown (queue s') = false).
  { intros Hf.
    apply (fine_shape IsReady MetaNamespaceKeyFunc) in Hstep
      as (evs & c & fs & _ & ->); [|exact Hf].
    simpl. rewrite Add_shuttingDown. split; assumption. }
  destruct l; try (apply Hfine; exact I); clear Hfine; simpl in Hstep;
    rewrite ?Hpc in Hstep; try discriminate.
  - destruct (_ && _); [|discriminate].
    apply (deliver_shape IsReady MetaNamespaceKeyFunc) in Hstep
      as (evs & c & _ & ->).
    simpl. rewrite Add_shuttingDown. split; assumption.
  - destruct (timerOn s); [|discriminate]. injection Hstep as <-.
    generalize (timerFunc (captured s)). intros r.
    rewrite ranCallback_eq. simpl. rewrite Add_shuttingDown. split; assumption.
  - destruct (processNextItem o s) as [[b s1]|] eqn:Hp; [|discriminate].
    apply processNextItem_shape in Hp as [(-> & Hget & ->)|(-> & ev & q' & Hget & ->)].
    + apply Get_shutdown in Hget as [_ Hget]. rewrite Hget in Hq. discriminate.
    + injection Hstep as <-. apply Get_item in Hget as (_ & _ & _ & Hsd).
      simpl. rewrite Hsd. split; assumption.
  - injection Hstep as <-. split; assumption.
Qed.

(** X4.  [Run] returns only before the worker ever ran: in every execution
    in which [Run] has returned, no [Get] was made, and either a cache-sync
    wait returned false or the stop channel was closed (already when the
    pod cache synced). *)
Theorem run_returns_before_any_get (clientErr timerErr : error)
    (ls : list (Label Node ReplicaSet Pod)) s0 s :
  CreateDescheduler Node clientErr timerErr = inl s0 ->
  exec' ls s0 = Some s ->
  pc s = Returned ->
  existsb isGet (calls s) = false /\
  ((exists i, In (CWaitForCacheSync i false) (calls s)) \/ stopCh s = true).
Proof.
  intros Hc He Hpc.
  destruct (reachable_runInv _ _ _ _ _ Hc He) as (Hsu & _ & Hr).
  destruct Hr as (_ & _ & _ & _ & Hg & Hst & _).
  unfold startupInv in Hsu. rewrite Hpc in Hsu.
  split; [apply Hg; rewrite Hpc; discriminate|].
  destruct Hsu as [[Hs|[_ [Hs|[Hs|Hs]]]] _].
  - right. apply Hst; assumption.
  - left. exists nodeInformer. apply syncs_In. rewrite Hs. simpl. auto.
  - left. exists rsInformer. apply syncs_In. rewrite Hs. simpl. auto.
  - left. exists podInformer. apply syncs_In. rewrite Hs. simpl. auto.
Qed.

(** X5.  When [Run] has returned, the stop channel of every informer it
    started has been closed: no informer is live, and no update is
    delivered any more. *)
Theorem informers_stopped_on_return (clientErr timerErr : error)
    (ls : list (Label Node ReplicaSet Pod)) s0 s (i : Informer)
    (old new : Object Node ReplicaSet Pod) :
  CreateDescheduler Node clientErr timerErr = inl s0 ->
  exec' ls s0 = Some s ->
  pc s = Returned ->
  live s = [] /\ defers s = [] /\ step' (LUpdate i old new) s = None.
Proof.
  intros Hc He Hpc.
  destruct (reachable_runInv _ _ _ _ _ Hc He) as (_ & _ & Hr).
  destruct Hr as (_ & Hl & Hd & _). rewrite Hpc in Hl, Hd.
  split; [exact Hl|]. split; [exact Hd|].
  simpl. rewrite Hl. reflexivity.
Qed.

(** X6.  The step in which [Run] returns ends with its deferred calls in
    reverse order of their registration: the stop channels of the live
    informers are closed, the one started last first, then the queue is
    shut down, and [HandleCrash] comes last. *)
Theorem deferred_calls_in_reverse_order (clientErr timerErr : error)
    (ls : list (Label Node ReplicaSet Pod)) s0 s l s' :
  CreateDescheduler Node clientErr timerErr = inl s0 ->
  exec' ls s0 = Some s ->
  step' l s = Some s' ->
  pc s <> Returned ->
  pc s' = Returned ->
  exists pre,
    calls s' = calls s ++ pre ++ map CClose (live s) ++ [CShutDown; CHandleCrash] /\
    live s = liveAt (pc s).
Proof.
  intros Hc He Hstep Hn Hpc'.
  destruct (reachable_runInv _ _ _ _ _ Hc He) as (_ & _ & Hr).
  destruct Hr as (Hb & Hl & Hd & Hq & _).
  assert (Hfine : isFine l -> False).
  { intros Hf.
    apply (fine_shape IsReady MetaNamespaceKeyFunc) in Hstep
      as (evs & c & fs & _ & ->); [|exact Hf].
    simpl in Hpc'. contradiction. }
  destruct l; try (exfalso; apply Hfine; exact I); clear Hfine; simpl in Hstep.
  - destruct (pc s); try discriminate. injection Hstep as <-. discriminate.
  - destruct (pc s) eqn:Hpc; try discriminate; injection Hstep as <-;
      simpl in Hl, Hd; unfold waitForCacheSync, untilLoop in *;
      destruct synced; simpl in *; try discriminate;
      try (destruct (stopCh s); simpl in *; try discriminate);
      rewrite Hd, Hl; simpl; repeat rewrite <- app_assoc; simpl;
      lazymatch goal with
      | |- exists pre, _ ++ ?a :: ?b :: CClose _ :: _ = _ /\ _ =>
          exists [a; b]
      | |- exists pre, _ ++ ?a :: ?b :: ?c :: CClose _ :: _ = _ /\ _ =>
          exists [a; b; c]
      end; split; reflexivity.
  - destruct (_ && _); [|discriminate].
    apply (deliver_shape IsReady MetaNamespaceKeyFunc) in Hstep
      as (evs & c & _ & ->).
    simpl in Hpc'. contradiction.
  - destruct (timerOn s); [|discriminate]. injection Hstep as <-.
    rewrite ranCallback_eq in Hpc'. simpl in Hpc'. contradiction.
  - destruct (pc s) eqn:Hpc; try discriminate.
    destruct (processNextItem o s) as [[b s1]|] eqn:Hp; [|discriminate].
    apply processNextItem_shape in Hp as [(-> & Hget & ->)|(-> & ev & q' & Hget & ->)].
    + apply Get_shutdown in Hget as [_ Hget]. rewrite Hget in Hq. discriminate.
    + injection Hstep as <-. simpl in Hpc'. congruence.
  - destruct (pc s); try discriminate. contradiction.
  - injection Hstep as <-. simpl in Hpc'. contradiction.
Qed.

(** X7.  After [Run] has returned the queue never changes again: no update
    is delivered, and what a still running timer adds is refused by the
    queue, which was shut down. *)
Theorem queue_frozen_after_return (clientErr timerErr : error)
    (ls ls' : list (Label Node ReplicaSet Pod)) s0 s s' :
  CreateDescheduler Node clientErr timerErr = inl s0 ->
  exec' ls s0 = Some s ->
  pc s = Returned ->
  exec' ls' s = Some s' ->
  queue s' = queue s /\ pc s' = Returned.
Proof.
  intros Hc He Hpc He'.
  destruct (reachable_runInv _ _ _ _ _ Hc He) as (_ & _ & Hr).
  destruct Hr as (_ & Hl & _ & Hq & _). rewrite Hpc in Hl, Hq. simpl in Hl.
  assert (H : queue s' = queue s /\ pc s' = Returned /\ live s' = []).
  { refine (exec_invariant IsReady MetaNamespaceKeyFunc
              (fun x => queue x = queue s /\ pc x = Returned /\ live x = [])
              _ ls' s s' (conj eq_refl (conj Hpc Hl)) He').
    intros l x x' (Hqx & Hpx & Hlx) Hstep.
    assert (Hfine : isFine l ->
                    queue x' = queue s /\ pc x' = Returned /\ live x' = []).
    { intros Hf.
      apply (fine_shape IsReady MetaNamespaceKeyFunc) in Hstep
        as (evs & c & fs & _ & ->); [|exact Hf].
      simpl. rewrite Add_after_ShutDown; [auto|]. rewrite Hqx. exact Hq. }
    destruct l; try (apply Hfine; exact I); clear Hfine; simpl in Hstep;
      rewrite ?Hpx, ?Hlx in Hstep; try discriminate.
    - destruct (timerOn x); [|discriminate]. injection Hstep as <-.
      generalize (timerFunc (captured x)). intros r.
      rewrite ranCallback_eq. simpl.
      rewrite Add_after_ShutDown; [auto|]. rewrite Hqx. exact Hq.
    - injection Hstep as <-. auto. }
  destruct H as (H1 & H2 & _). split; assumption.
Qed.

(** X11.  The informers are started one after the other, node, replica set,
    pod, each at most once; the replica set informer only after the node
    cache synced, the pod informer only after the replica set cache
    synced. *)
Theorem informers_started_in_order (clientErr timerErr : error)
    (ls : list (Label Node ReplicaSet Pod)) s0 s :
  CreateDescheduler Node clientErr timerErr = inl s0 ->
  exec' ls s0 = Some s ->
  (exists k, starts (calls s) = firstn k [nodeInformer; rsInformer; podInformer]) /\
  (In (CInformerRun rsInformer) (calls s) ->
   In (CWaitForCacheSync nodeInformer true) (calls s)) /\
  (In (CInformerRun podInformer) (calls s) ->
   In (CWaitForCacheSync rsInformer true) (calls s)).
Proof.
  intros Hc He.
  destruct (reachable_runInv _ _ _ _ _ Hc He) as (Hsu & _ & Hr).
  destruct Hr as (Hb & _ & _ & _ & _ & _ & Hs).
  unfold startupInv in Hsu. rewrite !starts_In, !syncs_In, Hs.
  destruct (pc s); try contradiction;
    [destruct Hsu as (Hy & _)..|
     destruct Hsu as [[Hy|[_ [Hy|[Hy|Hy]]]] _]];
    rewrite Hy; simpl;
    (split;
     [first [exists 0; reflexivity|exists 1; reflexivity|exists 2; reflexivity
            |exists 3; reflexivity]
     |split; intros H;
      first [solve [auto 6]
            |repeat (destruct H as [H|H]; [discriminate|]); contradiction]]).
Qed.

End RunInvariant.

Section EventShapes.

Context {Node ReplicaSet Pod : Type}.
Variable IsReady : Node -> bool.
Variable MetaNamespaceKeyFunc : Object Node ReplicaSet Pod -> string * error.
Implicit Types (s : State Node) (l : Label Node ReplicaSet Pod) (ev : Event).

Local Abbreviation step' := (step IsReady MetaNamespaceKeyFunc).
Local Abbreviation exec' := (exec IsReady MetaNamespaceKeyFunc).
Local Abbreviation schedule' := (schedule IsReady MetaNamespaceKeyFunc).

Lemma Event_eqb_refl ev : Event_eqb ev ev = true.
Proof. unfold Event_eqb. rewrite !String.eqb_refl. reflexivity. Qed.

Lemma fieldsKnown_spec ev :
  fieldsKnown ev = true ->
  namespace ev = "" /\
  (eventType ev = "onTime" \/ eventType ev = "getReady" \/
   eventType ev = "rsUpdate") /\
  (resourceType ev = "timer" \/ resourceType ev = "node" \/
   resourceType ev = "replicaSet").
Proof.
  unfold fieldsKnown, isEventType, isResourceType. intros H.
  apply andb_true_iff in H as [H Hr]. apply andb_true_iff in H as [Hn He].
  apply String.eqb_eq in Hn. split; [exact Hn|]. split.
  - apply orb_true_iff in He as [He|He]; [apply orb_true_iff in He as [He|He]|];
      apply String.eqb_eq in He; auto.
  - apply orb_true_iff in Hr as [Hr|Hr]; [apply orb_true_iff in Hr as [Hr|Hr]|];
      apply String.eqb_eq in Hr; auto.
Qed.

Lemma Add_twice ev (q : workqueue.Queue) :
  workqueue.Add ev (workqueue.Add ev q) = workqueue.Add ev q.
Proof.
  destruct q as [p r t sd]. unfold workqueue.Add. simpl.
  destruct sd; simpl; [reflexivity|].
  destruct (existsb (Event_eqb ev) p) eqn:Hx; simpl.
  - rewrite Hx. reflexivity.
  - rewrite existsb_app. simpl. rewrite Event_eqb_refl, orb_true_r. reflexivity.
Qed.

(** The schedule of a label runs only if the label's own step does, and
    then ends in the same state. *)
Lemma schedule_is_atomic_step l s s' :
  handlers s = registered ->
  exec' (schedule' l s) s = Some s' ->
  step' l s = Some s'.
Proof.
  intros Hh He.
  assert (Hsome : exists s2, step' l s = Some s2).
  { destruct l; cbn [schedule] in He;
      rewrite (exec_cons IsReady MetaNamespaceKeyFunc) in He;
      try (destruct (step IsReady MetaNamespaceKeyFunc _ s) as [s2|];
           [exists s2; reflexivity|discriminate]).
    - unfold step in He |- *. rewrite Hh in *.
      destruct (existsb (Informer_eqb i) (live s)); [|discriminate].
      destruct i, old as [o|r|p], new as [n|r'|p']; try discriminate;
        eexists; reflexivity.
    - unfold step in He |- *.
      destruct (timerOn s); [|discriminate]. eexists. reflexivity. }
  destruct Hsome as [s2 H2].
  rewrite (atomic_step_is_schedule IsReady MetaNamespaceKeyFunc l s s2 Hh H2)
    in He.
  injection He as <-. exact H2.
Qed.

(** X8.  Two timer fires in a row coalesce: the second builds the same
    event as the first and hands it to [queue.Add] again, which leaves the
    queue as the first fire left it. *)
Theorem timer_fires_coalesce s s1 s2 :
  step' LTimer s = Some s1 ->
  step' LTimer s1 = Some s2 ->
  queue s2 = queue s1 /\ captured s2 = captured s1 /\
  added (calls s2) = added (calls s1) ++ [newEvent (captured s1)].
Proof.
  simpl. destruct (timerOn s) eqn:Ht; [|discriminate].
  intros H1. injection H1 as <-.
  rewrite ranCallback_eq. simpl. rewrite Ht.
  intros H2. injection H2 as <-.
  rewrite ranCallback_eq. simpl.
  rewrite Add_twice, added_app. simpl.
  destruct (newEvent (captured s)) as [k t n r]. repeat split.
Qed.

(** X9.  In every execution, whatever the interleaving of the callbacks,
    every event pending in the queue, being processed, or ever handed to
    [queue.Add] has an empty namespace, an eventType among onTime, getReady
    and rsUpdate, and a resourceType among timer, node and replicaSet.  No
    callback writes [namespace], and an [Add] is reached only after both
    other fields were written.  (The eventType of one callback can come
    with the resourceType of another: the callbacks write the one
    [newEvent].) *)
Theorem events_have_known_fields (clientErr timerErr : error)
    (ls : list (Label Node ReplicaSet Pod)) s0 s ev :
  CreateDescheduler Node clientErr timerErr = inl s0 ->
  exec' ls s0 = Some s ->
  In ev (workqueue.pending (queue s)) \/
  In ev (workqueue.processing (queue s)) \/ In (CAdd ev) (calls s) ->
  namespace ev = "" /\
  (eventType ev = "onTime" \/ eventType ev = "getReady" \/
   eventType ev = "rsUpdate") /\
  (resourceType ev = "timer" \/ resourceType ev = "node" \/
   resourceType ev = "replicaSet").
Proof.
  intros Hc He H.
  destruct (reachable_inv IsReady MetaNamespaceKeyFunc _ _ _ _ _ Hc He)
    as (_ & _ & _ & _ & Hp & Hq & Ha).
  apply fieldsKnown_spec. rewrite forallb_forall in Hp, Hq, Ha.
  destruct H as [H|[H|H]]; auto. apply Ha. apply added_In. exact H.
Qed.

(** X10.  In every state an execution reaches, an update delivered by an
    informer whose handler then runs its statements with no statement of
    another callback in between hands at most one event to [queue.Add],
    and that event carries the key derived from the old object of this
    very update (not a key left by an earlier callback) and is not a timer
    event. *)
Theorem uninterrupted_update_carries_own_key (clientErr timerErr : error)
    (ls : list (Label Node ReplicaSet Pod)) s0 s (i : Informer)
    (old new : Object Node ReplicaSet Pod) s' :
  CreateDescheduler Node clientErr timerErr = inl s0 ->
  exec' ls s0 = Some s ->
  exec' (schedule' (LUpdate i old new) s) s = Some s' ->
  exists evs,
    added (calls s') = added (calls s) ++ evs /\
    length evs <= 1 /\
    forall ev, In ev evs ->
      key ev = fst (MetaNamespaceKeyFunc old) /\
      snd (MetaNamespaceKeyFunc old) = None /\
      resourceType ev <> "timer".
Proof.
  intros Hc He Hstep.
  destruct (reachable_inv IsReady MetaNamespaceKeyFunc _ _ _ _ _ Hc He)
    as (_ & Hh & _).
  apply schedule_is_atomic_step in Hstep; [|exact Hh].
  apply (step_update_registered IsReady MetaNamespaceKeyFunc) in Hstep;
    [|exact Hh].
  destruct i.
  - destruct Hstep as (o & n & -> & -> & ->). rewrite ranCallback_eq. simpl.
    rewrite added_app, added_map_CAdd, nodeUpdateFunc_adds.
    eexists. split; [reflexivity|].
    destruct (negb _ && _); [|split; [simpl; lia|intros ev []]].
    destruct (snd (MetaNamespaceKeyFunc (ONode o))); simpl;
      [split; [lia|intros ev []]|].
    split; [lia|]. intros ev [<-|[]]. simpl. repeat split. discriminate.
  - subst s'. rewrite ranCallback_eq. simpl.
    rewrite added_app, added_map_CAdd, rsUpdateFunc_adds.
    eexists. split; [reflexivity|].
    destruct (snd (MetaNamespaceKeyFunc old)); simpl;
      [split; [lia|intros ev []]|].
    split; [lia|]. intros ev [<-|[]]. simpl. repeat split. discriminate.
  - subst s'. exists []. rewrite app_nil_r. split; [reflexivity|].
    split; [simpl; lia|intros ev []].
Qed.

(** X12.  The replica set handler has no filter: in every state an
    execution reaches, a replica set update whose key can be derived and
    whose handler runs its statements with no statement of another callback
    in between hands exactly one event to [queue.Add], whatever the old and
    the new object are (also when they are equal), and that event is the
    rsUpdate event of that key. *)
Theorem uninterrupted_rs_update_enqueues (clientErr timerErr : error)
    (ls : list (Label Node ReplicaSet Pod)) s0 s
    (old new : Object Node ReplicaSet Pod) s' :
  CreateDescheduler Node clientErr timerErr = inl s0 ->
  exec' ls s0 = Some s ->
  exec' (LDeliver rsInformer old new ::
         uninterrupted (rsCode MetaNamespaceKeyFunc old new)
                       (length (frames s)) s) s = Some s' ->
  snd (MetaNamespaceKeyFunc old) = None ->
  added (calls s') =
  added (calls s) ++
  [mkEvent (fst (MetaNamespaceKeyFunc old)) "rsUpdate" "" "replicaSet"].
Proof.
  intros Hc He Hstep Hk.
  destruct (reachable_inv IsReady MetaNamespaceKeyFunc _ _ _ _ _ Hc He)
    as (_ & Hh & Hn & _).
  assert (Hs : exec' (schedule' (LUpdate rsInformer old new) s) s = Some s').
  { unfold schedule. rewrite Hh.
    cbn [handlerCodes handlerCode registered Informer_eqb]. exact Hstep. }
  apply schedule_is_atomic_step in Hs; [|exact Hh].
  apply (step_update_registered IsReady MetaNamespaceKeyFunc) in Hs;
    [|exact Hh].
  subst s'. rewrite ranCallback_eq. simpl.
  rewrite added_app, added_map_CAdd, rsUpdateFunc_adds, Hk, Hn. reflexivity.
Qed.

End EventShapes.

Section WorkerLoop.

Context {Node : Type}.
Implicit Types (s : State Node) (o : Oracle Node) (ev : Event).

Lemma acked_between o ev : acked (between o ev) = [].
Proof.
  unfold between.
  destruct (_ || _); [destruct (isTriggered o);
                      [destruct (snd (getReadyNodes o))|]|]; reflexivity.
Qed.

(** X1.  Given more answers than there are pending events, and no producer
    in between, the worker loop acknowledges the pending events one by one
    in queue order, whatever the trigger predicate and the provider answer,
    and empties the queue; then it blocks in [Get], or returns when the
    queue was shut down. *)
Theorem worker_drains_in_order (os : list (Oracle Node)) s :
  length (workqueue.pending (queue s)) < length os ->
  exists s',
    runWorker os s =
    (if workqueue.shuttingDown (queue s) then WorkerReturned s'
     else WorkerBlocked s') /\
    acked (calls s') = acked (calls s) ++ workqueue.pending (queue s) /\
    workqueue.pending (queue s') = [] /\
    captured s' = captured s /\ pc s' = pc s.
Proof.
  remember (workqueue.pending (queue s)) as p eqn:Hp.
  revert os s Hp. induction p as [|ev p IH]; intros os s Hp Hlen.
  - destruct os as [|o os]; [simpl in Hlen; lia|]. simpl.
    unfold processNextItem, workqueue.Get. rewrite <- Hp.
    destruct (workqueue.shuttingDown (queue s)).
    + eexists. split; [reflexivity|]. simpl.
      rewrite acked_app, <- Hp, !app_nil_r. repeat split.
    + exists s. rewrite app_nil_r, <- Hp. repeat split.
  - destruct os as [|o os]; [simpl in Hlen; lia|]. simpl in Hlen.
    assert (Hg : workqueue.Get (queue s) =
                 workqueue.GetItem ev
                   (workqueue.mkQueue p (ev :: workqueue.processing (queue s))
                      (workqueue.retries (queue s))
                      (workqueue.shuttingDown (queue s))))
      by (unfold workqueue.Get; rewrite <- Hp; reflexivity).
    simpl. rewrite (processNextItem_item o s ev _ Hg).
    match goal with |- context [runWorker os ?x] => set (s1 := x) end.
    destruct (IH os s1 eq_refl ltac:(simpl; lia)) as (s' & Hr & Ha & Hq & Hc & Hpc).
    exists s'. simpl in Hr. rewrite Hr. split; [reflexivity|].
    rewrite Ha. unfold s1. simpl.
    rewrite acked_app. simpl. rewrite acked_app, acked_between. simpl.
    rewrite <- app_assoc. repeat split; assumption.
Qed.

(** X2.  When the worker dequeues an event, it asks for the ready nodes if
    and only if the event's resourceType is node or timer and the trigger
    predicate answered true; when the predicate answers false the
    iteration is Get, IsTriggered and Done. *)
Theorem provider_called_only_when_triggered o s ev (q' : workqueue.Queue) :
  workqueue.Get (queue s) = workqueue.GetItem ev q' ->
  exists s' mid,
    processNextItem o s = Some (true, s') /\
    calls s' = calls s ++ CGet (Some ev) :: mid ++ [CDone ev] /\
    (existsb isGetReadyNodes mid = true <->
     ((resourceType ev = "node" \/ resourceType ev = "timer") /\
      isTriggered o = true)) /\
    (isTriggered o = false -> existsb isGetReadyNodes mid = false /\
                              length mid <= 1).
Proof.
  intros H. eexists. exists (between o ev).
  split; [apply processNextItem_item; exact H|].
  split; [reflexivity|]. unfold between.
  destruct (String.eqb_spec (resourceType ev) "node") as [Hn|Hn];
    destruct (String.eqb_spec (resourceType ev) "timer") as [Ht|Ht];
    destruct (isTriggered o); simpl;
    (split; [split|]); auto; try discriminate; try (intros _; split; auto; lia);
    try (intros [_ ?]; discriminate); try (intros [[?|?] _]; contradiction).
Qed.

End WorkerLoop.

Section CommandLine.

Variable pathJoin : string -> string -> string.

(** X13.  [initConfig] ends the process if and only if the home directory
    cannot be found; it then prints the error and exits with code 1 without
    a single call to viper.  A configuration file that cannot be read never
    ends it. *)
Theorem initConfig_exits_iff_no_home (home : string * error) (readErr : error)
    (used : string) (g : cmd.Globals) :
  (fst (cmd.initConfig pathJoin home readErr used g) = None <-> snd home <> None) /\
  (fst (cmd.initConfig pathJoin home readErr used g) = None ->
   exists e, snd home = Some e /\
     snd (cmd.initConfig pathJoin home readErr used g) =
     [cmd.HomedirDir; cmd.Println e; cmd.Exit 1]) /\
  (In (cmd.Exit 1) (snd (cmd.initConfig pathJoin home readErr used g)) ->
   existsb cmd.isViper (snd (cmd.initConfig pathJoin home readErr used g)) = false).
Proof.
  unfold cmd.initConfig. destruct (snd home) as [e|]; simpl.
  - repeat split; try discriminate. intros _. exists e. split; reflexivity.
  - split; [split; [discriminate|intros H; contradiction]|].
    split; [discriminate|].
    intros [H|H]; [discriminate|]. exfalso.
    apply in_app_or in H as [H|H].
    + destruct (negb _); simpl in H;
        repeat (destruct H as [H|H]; [discriminate|]); exact H.
    + destruct readErr; simpl in H;
        repeat (destruct H as [H|H]; [discriminate|]); exact H.
Qed.

(** X14.  When [initConfig] returns, a kubeconfig given on the command line
    is kept and an absent one becomes [path.Join(home, ".kube/config")];
    the config flag is left as it was and decides where viper looks: the
    given file and nothing else, or else the name .descheduler in the home
    directory. *)
Theorem initConfig_flag_precedence (home : string) (readErr : error)
    (used : string) (g : cmd.Globals) :
  exists g' log,
    cmd.initConfig pathJoin (home, None) readErr used g = (Some g', log) /\
    cmd.kubeConfigFile g' =
    (if String.eqb (cmd.kubeConfigFile g) ""
     then pathJoin home ".kube/config" else cmd.kubeConfigFile g) /\
    cmd.configFile g' = cmd.configFile g /\ cmd.dryRun g' = cmd.dryRun g /\
    (forall f, In (cmd.SetConfigFile f) log <->
               (f = cmd.configFile g /\ cmd.configFile g <> "")) /\
    (forall d, In (cmd.AddConfigPath d) log <->
               (d = home /\ cmd.configFile g = "")) /\
    (forall n, In (cmd.SetConfigName n) log <->
               (n = ".descheduler" /\ cmd.configFile g = "")).
Proof.
  unfold cmd.initConfig. simpl. eexists. eexists. split; [reflexivity|].
  assert (Hc : cmd.configFile
                 (if String.eqb (cmd.kubeConfigFile g) ""
                  then cmd.mkGlobals (cmd.configFile g)
                         (pathJoin home ".kube/config") (cmd.dryRun g)
                  else g) = cmd.configFile g)
    by (destruct (String.eqb (cmd.kubeConfigFile g) ""); reflexivity).
  rewrite Hc.
  split; [destruct (String.eqb (cmd.kubeConfigFile g) ""); reflexivity|].
  split; [reflexivity|].
  split; [destruct (String.eqb (cmd.kubeConfigFile g) ""); reflexivity|].
  destruct (String.eqb_spec (cmd.configFile g) "") as [He|He]; simpl;
    destruct readErr; simpl;
    (split; [|split]); intros x;
    (split;
     [intros H;
      repeat (destruct H as [H|H];
              [first [discriminate
                     |injection H as <-; split; [reflexivity|assumption]]|]);
      contradiction
     |intros [-> Hx]; first [contradiction|congruence|auto 10]]).
Qed.

End CommandLine.

(** * The further properties on the sample cluster *)

Lemma worker_drains_in_order_witness :
  length (workqueue.pending (queue Cluster.busy)) < length Cluster.answers /\
  exists s',
    runWorker Cluster.answers Cluster.busy = WorkerBlocked s' /\
    acked (calls s') =
    acked (calls Cluster.busy) ++
    [Sample.n1_event; Cluster.rs_event; Cluster.timer_event] /\
    workqueue.pending (queue s') = [] /\
    captured s' = captured Cluster.busy /\ pc s' = pc Cluster.busy.
Proof.
  split; [simpl; lia|].
  apply (worker_drains_in_order Cluster.answers Cluster.busy). simpl. lia.
Defined.

Lemma provider_called_only_when_triggered_witness :
  workqueue.Get (queue (Sample.holding Sample.n1_event)) =
  workqueue.GetItem Sample.n1_event
    (workqueue.mkQueue [] [Sample.n1_event] [] false) /\
  exists s' mid,
    processNextItem Sample.notTriggered (Sample.holding Sample.n1_event) =
    Some (true, s') /\
    calls s' = calls (Sample.holding Sample.n1_event) ++
               CGet (Some Sample.n1_event) :: mid ++ [CDone Sample.n1_event] /\
    (existsb isGetReadyNodes mid = true <->
     ((resourceType Sample.n1_event = "node" \/
       resourceType Sample.n1_event = "timer") /\
      isTriggered Sample.notTriggered = true)) /\
    (isTriggered Sample.notTriggered = false ->
     existsb isGetReadyNodes mid = false /\ length mid <= 1).
Proof.
  split; [reflexivity|].
  apply (provider_called_only_when_triggered Sample.notTriggered
           (Sample.holding Sample.n1_event) Sample.n1_event
           (workqueue.mkQueue [] [Sample.n1_event] [] false)).
  reflexivity.
Defined.

Lemma worker_loop_never_left_witness :
  exec Sample.nodeReady Sample.keyFunc Sample.startup Sample.created =
  Some Sample.synced /\
  pc Sample.synced = InWorker /\
  exec Sample.nodeReady Sample.keyFunc Cluster.afterStop Sample.synced =
  Some Cluster.stillWorking /\
  stopCh Cluster.stillWorking = true /\
  pc Cluster.stillWorking = InWorker /\
  workqueue.shuttingDown (queue Cluster.stillWorking) = false.
Proof.
  split; [vm_compute; reflexivity|]. split; [reflexivity|].
  split; [vm_compute; reflexivity|]. split; [reflexivity|].
  apply (worker_loop_never_left Sample.nodeReady Sample.keyFunc None None
           Sample.startup Cluster.afterStop Sample.created Sample.synced
           Cluster.stillWorking);
    try reflexivity; vm_compute; reflexivity.
Defined.

Lemma run_returns_before_any_get_witness :
  exec Sample.nodeReady Sample.keyFunc Cluster.stopEarly Sample.created =
  Some Cluster.stoppedEarly /\
  pc Cluster.stoppedEarly = Returned /\
  timerOn Cluster.stoppedEarly = true /\
  existsb isGet (calls Cluster.stoppedEarly) = false /\
  ((exists i, In (CWaitForCacheSync i false) (calls Cluster.stoppedEarly)) \/
   stopCh Cluster.stoppedEarly = true).
Proof.
  split; [vm_compute; reflexivity|]. split; [reflexivity|].
  split; [reflexivity|].
  apply (run_returns_before_any_get Sample.nodeReady Sample.keyFunc None None
           Cluster.stopEarly Sample.created Cluster.stoppedEarly);
    try reflexivity; vm_compute; reflexivity.
Defined.

Lemma informers_stopped_on_return_witness :
  exec Sample.nodeReady Sample.keyFunc Sample.abortLabels Sample.created =
  Some Sample.aborted /\
  pc Sample.aborted = Returned /\
  live Sample.aborted = [] /\ defers Sample.aborted = [] /\
  step Sample.nodeReady Sample.keyFunc Sample.n1_ready Sample.aborted = None.
Proof.
  split; [vm_compute; reflexivity|]. split; [reflexivity|].
  apply (informers_stopped_on_return Sample.nodeReady Sample.keyFunc None None
           Sample.abortLabels Sample.created Sample.aborted);
    try reflexivity; vm_compute; reflexivity.
Defined.

Lemma deferred_calls_in_reverse_order_witness :
  exec Sample.nodeReady Sample.keyFunc [LRun; LSync true] Sample.created =
  Some Cluster.waitingRs /\
  step Sample.nodeReady Sample.keyFunc (LSync false) Cluster.waitingRs =
  Some Cluster.rsTimedOut /\
  pc Cluster.waitingRs <> Returned /\
  pc Cluster.rsTimedOut = Returned /\
  exists pre,
    calls Cluster.rsTimedOut =
    calls Cluster.waitingRs ++ pre ++
    map CClose (live Cluster.waitingRs) ++ [CShutDown; CHandleCrash] /\
    live Cluster.waitingRs = liveAt (pc Cluster.waitingRs).
Proof.
  split; [vm_compute; reflexivity|]. split; [vm_compute; reflexivity|].
  split; [discriminate|]. split; [reflexivity|].
  apply (deferred_calls_in_reverse_order Sample.nodeReady Sample.keyFunc
           None None [LRun; LSync true] Sample.created Cluster.waitingRs
           (LSync false) Cluster.rsTimedOut);
    try reflexivity; try discriminate; vm_compute; reflexivity.
Defined.

Lemma queue_frozen_after_return_witness :
  exec Sample.nodeReady Sample.keyFunc Cluster.stopEarly Sample.created =
  Some Cluster.stoppedEarly /\
  pc Cluster.stoppedEarly = Returned /\
  exec Sample.nodeReady Sample.keyFunc Cluster.lateTimer Cluster.stoppedEarly =
  Some Cluster.stoppedThenTimer /\
  added (calls Cluster.stoppedThenTimer) = [Cluster.timer_event] /\
  queue Cluster.stoppedThenTimer = queue Cluster.stoppedEarly /\
  pc Cluster.stoppedThenTimer = Returned.
Proof.
  split; [vm_compute; reflexivity|]. split; [reflexivity|].
  split; [vm_compute; reflexivity|]. split; [vm_compute; reflexivity|].
  apply (queue_frozen_after_return Sample.nodeReady Sample.keyFunc None None
           Cluster.stopEarly Cluster.lateTimer Sample.created
           Cluster.stoppedEarly Cluster.stoppedThenTimer);
    try reflexivity; vm_compute; reflexivity.
Defined.

Lemma timer_fires_coalesce_witness :
  step Sample.nodeReady Sample.keyFunc LTimer Sample.synced =
  Some Cluster.timerOnce /\
  step Sample.nodeReady Sample.keyFunc LTimer Cluster.timerOnce =
  Some Cluster.timerTwice /\
  workqueue.pending (queue Cluster.timerOnce) = [Cluster.timer_event] /\
  queue Cluster.timerTwice = queue Cluster.timerOnce /\
  captured Cluster.timerTwice = captured Cluster.timerOnce /\
  added (calls Cluster.timerTwice) =
  added (calls Cluster.timerOnce) ++ [newEvent (captured Cluster.timerOnce)].
Proof.
  split; [vm_compute; reflexivity|]. split; [vm_compute; reflexivity|].
  split; [reflexivity|].
  apply (timer_fires_coalesce Sample.nodeReady Sample.keyFunc Sample.synced
           Cluster.timerOnce Cluster.timerTwice);
    vm_compute; reflexivity.
Defined.

Lemma events_have_known_fields_witness :
  exec Sample.nodeReady Sample.keyFunc Cluster.timerInsideNode Sample.created =
  Some Cluster.mixedAdded /\
  workqueue.pending (queue Cluster.mixedAdded) =
  [mkEvent "n1" "onTime" "" "timer"; mkEvent "n1" "onTime" "" "node"] /\
  namespace (mkEvent "n1" "onTime" "" "node") = "" /\
  (eventType (mkEvent "n1" "onTime" "" "node") = "onTime" \/
   eventType (mkEvent "n1" "onTime" "" "node") = "getReady" \/
   eventType (mkEvent "n1" "onTime" "" "node") = "rsUpdate") /\
  (resourceType (mkEvent "n1" "onTime" "" "node") = "timer" \/
   resourceType (mkEvent "n1" "onTime" "" "node") = "node" \/
   resourceType (mkEvent "n1" "onTime" "" "node") = "replicaSet").
Proof.
  split; [vm_compute; reflexivity|]. split; [reflexivity|].
  apply (events_have_known_fields Sample.nodeReady Sample.keyFunc None None
           Cluster.timerInsideNode Sample.created Cluster.mixedAdded
           (mkEvent "n1" "onTime" "" "node")).
  - reflexivity.
  - vm_compute. reflexivity.
  - left. right. left. reflexivity.
Defined.

Lemma uninterrupted_update_carries_own_key_witness :
  exec Sample.nodeReady Sample.keyFunc Sample.startup Sample.created =
  Some Sample.synced /\
  exec Sample.nodeReady Sample.keyFunc
       (schedule Sample.nodeReady Sample.keyFunc Sample.n1_ready Sample.synced)
       Sample.synced = Some Cluster.n1Ready /\
  added (calls Cluster.n1Ready) = [Sample.n1_event] /\
  exists evs,
    added (calls Cluster.n1Ready) = added (calls Sample.synced) ++ evs /\
    length evs <= 1 /\
    forall ev, In ev evs ->
      key ev = fst (Sample.keyFunc (ONode Sample.n1_down)) /\
      snd (Sample.keyFunc (ONode Sample.n1_down)) = None /\
      resourceType ev <> "timer".
Proof.
  split; [vm_compute; reflexivity|]. split; [vm_compute; reflexivity|].
  split; [reflexivity|].
  apply (uninterrupted_update_carries_own_key Sample.nodeReady Sample.keyFunc
           None None Sample.startup Sample.created Sample.synced nodeInformer
           (ONode Sample.n1_down) (ONode Sample.n1_up) Cluster.n1Ready);
    try reflexivity; vm_compute; reflexivity.
Defined.

Lemma informers_started_in_order_witness :
  exec Sample.nodeReady Sample.keyFunc Sample.abortLabels Sample.created =
  Some Sample.aborted /\
  starts (calls Sample.aborted) = [nodeInformer; rsInformer] /\
  (exists k, starts (calls Sample.aborted) =
             firstn k [nodeInformer; rsInformer; podInformer]) /\
  (In (CInformerRun rsInformer) (calls Sample.aborted) ->
   In (CWaitForCacheSync nodeInformer true) (calls Sample.aborted)) /\
  (In (CInformerRun podInformer) (calls Sample.aborted) ->
   In (CWaitForCacheSync rsInformer true) (calls Sample.aborted)).
Proof.
  split; [vm_compute; reflexivity|]. split; [reflexivity|].
  apply (informers_started_in_order Sample.nodeReady Sample.keyFunc None None
           Sample.abortLabels Sample.created Sample.aborted);
    try reflexivity; vm_compute; reflexivity.
Defined.

Lemma uninterrupted_rs_update_enqueues_witness :
  exec Sample.nodeReady Sample.keyFunc Sample.startup Sample.created =
  Some Sample.synced /\
  exec Sample.nodeReady Sample.keyFunc
       (Cluster.web_delivered ::
        uninterrupted (rsCode Sample.keyFunc (OReplicaSet Sample.web)
                              (OReplicaSet Sample.web))
                      (length (frames Sample.synced)) Sample.synced)
       Sample.synced = Some Cluster.webUpdated /\
  snd (Sample.keyFunc (OReplicaSet Sample.web)) = None /\
  added (calls Cluster.webUpdated) =
  added (calls Sample.synced) ++ [Cluster.rs_event].
Proof.
  split; [vm_compute; reflexivity|]. split; [vm_compute; reflexivity|].
  split; [reflexivity|].
  apply (uninterrupted_rs_update_enqueues Sample.nodeReady Sample.keyFunc
           None None Sample.startup Sample.created Sample.synced
           (OReplicaSet Sample.web) (OReplicaSet Sample.web) Cluster.webUpdated);
    try reflexivity; vm_compute; reflexivity.
Defined.

Lemma getReady_iff_transition_when_uninterrupted_witness :
  CreateDescheduler Sample.node None None = inl Sample.created /\
  exec Sample.nodeReady Sample.keyFunc Sample.startup Sample.created =
  Some Sample.synced /\
  existsb (Informer_eqb nodeInformer) (live Sample.synced) = true /\
  exists s' evs,
    exec Sample.nodeReady Sample.keyFunc
         (LDeliver nodeInformer (ONode Sample.n1_down) (ONode Sample.n1_up) ::
          uninterrupted (nodeCode Sample.nodeReady Sample.keyFunc
                                  Sample.n1_down Sample.n1_up)
                        (length (frames Sample.synced)) Sample.synced)
         Sample.synced = Some s' /\
    added (calls s') = added (calls Sample.synced) ++ evs /\
    length evs <= 1 /\
    ((exists e, In e evs /\ eventType e = "getReady" /\ resourceType e = "node")
     <-> (Sample.nodeReady Sample.n1_down = false /\
          Sample.nodeReady Sample.n1_up = true /\
          snd (Sample.keyFunc (ONode Sample.n1_down)) = None)) /\
    (forall e, In e evs ->
       e = mkEvent (fst (Sample.keyFunc (ONode Sample.n1_down)))
                   "getReady" "" "node" /\
       (workqueue.shuttingDown (queue Sample.synced) = false ->
        In e (workqueue.pending (queue s')))).
Proof.
  split; [reflexivity|]. split; [vm_compute; reflexivity|].
  split; [reflexivity|].
  apply (getReady_iff_transition_when_uninterrupted
           Sample.nodeReady Sample.keyFunc None None Sample.startup
           Sample.created Sample.synced Sample.n1_down Sample.n1_up);
    try reflexivity; vm_compute; reflexivity.
Defined.
